(** * The ingestion worker and the report generator

    A shallow embedding of the two Lambda functions of the pipeline,
    [lambda/processor/index.py] and [lambda/reporter/index.py], and the
    properties of them that the design document states.

    Conventions of the embedding.
    - Python objects that the code only passes around are records; a dict
      whose keys are data is an insertion-ordered association list
      ([Py.dict_get], [Py.dict_set]); the metadata table is a [gmap] from the
      record identifier to the item.
    - A Python exception is [Raise msg], where [msg] stands for [str(e)];
      code that can raise lives in the monad [M S], a state monad over [S]
      with exceptions, and [try_except] is the [try ... except Exception]
      statement.
    - The clock, the identifier generator and the failures of the AWS
      services are inputs: an [env] gives, for the n-th interaction with the
      outside, the time read, the identifier drawn and whether the call
      raises.
    - Python floats are binary64 numbers ([PrimFloat.float]).
    - A [str] is held as its UTF-8 encoding, a naive [datetime] that is
      not taken apart as the whole seconds from 1970-01-01T00:00:00 to
      it. *)

From Stdlib Require Import ZArith Floats Ascii Lia.
From Stdlib Require Import Sorting.Sorted Sorting.Permutation.
From stdpp Require Import base option list strings pretty gmap.

Local Open Scope Z_scope.
#[local] Set Warnings "-register-all".
(* A decimal literal stands for the float nearest to it, as in Python. *)
#[local] Set Warnings "-inexact-float".

(** ** Python values and library functions used by both programs *)

Module Py.

(** The outcome of code that may raise; the message is [str(e)]. *)
Inductive result (A : Type) : Type :=
| Ok (a : A)
| Raise (msg : string).
Arguments Ok {A} a.
Arguments Raise {A} msg.

Definition is_ok {A} (r : result A) : bool :=
  match r with Ok _ => true | Raise _ => false end.

#[global] Instance result_ret : MRet result := λ A a, Ok a.
#[global] Instance result_bind : MBind result := λ A B f r,
  match r with
  | Ok a => f a
  | Raise e => Raise e
  end.

(** A state monad with exceptions: the state reached when an exception is
    raised is kept, as assignments and writes made before a Python
    exception are. *)
Definition M (S A : Type) : Type := S → result A * S.

#[global] Instance M_ret {S} : MRet (M S) := λ A a s, (Ok a, s).
#[global] Instance M_bind {S} : MBind (M S) := λ A B f m s,
  match m s with
  | (Ok a, s') => f a s'
  | (Raise e, s') => (Raise e, s')
  end.
#[global] Instance M_throw {S} : MThrow string (M S) := λ A e s, (Raise e, s).

(** [try: body except Exception as e: handler(e)] *)
Definition try_except {S A} (body : M S A) (handler : string → M S A) : M S A :=
  λ s, match body s with
       | (Ok a, s') => (Ok a, s')
       | (Raise e, s') => handler e s'
       end.

(** An expression that may raise, evaluated without touching the state. *)
Definition lift {S A} (r : result A) : M S A := λ s, (r, s).

Definition get {S} : M S S := λ s, (Ok s, s).
Definition modify {S} (f : S → S) : M S unit := λ s, (Ok tt, f s).

(** [for x in l: body(x)] *)
Fixpoint for_each {S A} (l : list A) (body : A → M S unit) : M S unit :=
  match l with
  | [] => mret tt
  | x :: l' => body x ;; for_each l' body
  end.

(** Truthiness of an optional string ([if s:]) and of an optional integer. *)
Definition truthy_str (s : option string) : bool :=
  match s with
  | Some s => negb (String.eqb s "")
  | None => false
  end.

Definition truthy_int (n : option Z) : bool :=
  match n with
  | Some n => negb (n =? 0)
  | None => false
  end.

(** [sum(...)]: Python adds from the left, starting at 0. *)
Definition sum (l : list Z) : Z := fold_left Z.add l 0.

(** *** Insertion-ordered dicts *)

Section dict.
Context {K V : Type} `{EqDecision K}.

Fixpoint dict_get (d : list (K * V)) (k : K) : option V :=
  match d with
  | [] => None
  | (k', v) :: d' => if decide (k = k') then Some v else dict_get d' k
  end.

(** [d[k] = v]: an existing key keeps its place. *)
Fixpoint dict_set (d : list (K * V)) (k : K) (v : V) : list (K * V) :=
  match d with
  | [] => [(k, v)]
  | (k', v') :: d' =>
      if decide (k = k') then (k, v) :: d' else (k', v') :: dict_set d' k v
  end.

(** [dict(pairs)] *)
Definition dict_of (pairs : list (K * V)) : list (K * V) :=
  fold_left (λ d kv, dict_set d kv.1 kv.2) pairs [].
End dict.

(** *** Strings

    A [str] is held as its UTF-8 encoding: a character of the ASCII range
    is one byte, any other character a lead byte followed by one to three
    continuation bytes. *)

Definition code (c : ascii) : Z := Z.of_nat (nat_of_ascii c).

(** [c.isspace()] for a character of the ASCII range: the codes 9 to 13
    and 28 to 32. *)
Definition is_space (c : ascii) : bool :=
  let n := code c in
  ((9 <=? n) && (n <=? 13)) || ((28 <=? n) && (n <=? 32)).

(** The characters of two bytes for which [isspace()] holds: U+0085 and
    U+00A0, encoded C2 85 and C2 A0. *)
Definition is_space2 (a b : ascii) : bool :=
  (code a =? 194) && ((code b =? 133) || (code b =? 160)).

(** The characters of three bytes for which [isspace()] holds: U+1680
    (E1 9A 80), U+2000 to U+200A, U+2028, U+2029 and U+202F (E2 80 80 to
    E2 80 8A, E2 80 A8, E2 80 A9, E2 80 AF), U+205F (E2 81 9F) and U+3000
    (E3 80 80). No character of four bytes is whitespace. *)
Definition is_space3 (a b c : ascii) : bool :=
  ((code a =? 225) && (code b =? 154) && (code c =? 128))
  || ((code a =? 226) && (code b =? 128)
      && (((128 <=? code c) && (code c <=? 138))
          || (code c =? 168) || (code c =? 169) || (code c =? 175)))
  || ((code a =? 226) && (code b =? 129) && (code c =? 159))
  || ((code a =? 227) && (code b =? 128) && (code c =? 128)).

(** The whitespace characters at the start of [s] removed. With
    [backwards], [s] is a text written from its end, so that the bytes of
    each character come last byte first. *)
Fixpoint skip_spaces (backwards : bool) (s : string) : string :=
  match s with
  | EmptyString => EmptyString
  | String a s1 =>
      if is_space a then skip_spaces backwards s1
      else
        match s1 with
        | EmptyString => s
        | String b s2 =>
            if (if backwards then is_space2 b a else is_space2 a b)
            then skip_spaces backwards s2
            else
              match s2 with
              | EmptyString => s
              | String c s3 =>
                  if (if backwards then is_space3 c b a else is_space3 a b c)
                  then skip_spaces backwards s3
                  else s
              end
        end
  end.

(** [s.lstrip()] and [s.rstrip()] *)
Definition lstrip (s : string) : string := skip_spaces false s.

Definition rstrip (s : string) : string :=
  String.rev (skip_spaces true (String.rev s)).

(** [s.strip()] *)
Definition strip (s : string) : string := rstrip (lstrip s).

(** A continuation byte of UTF-8: 10xxxxxx. *)
Definition continuation (c : ascii) : bool :=
  (128 <=? code c) && (code c <? 192).

(** The characters of [s], each as a string of its own: what [for c in s]
    visits. A character begins at every byte that is no continuation
    byte. *)
Fixpoint characters (s : string) : list string :=
  match s with
  | EmptyString => []
  | String a s' =>
      match s' with
      | EmptyString => [String a EmptyString]
      | String b _ =>
          if continuation b
          then match characters s' with
               | h :: t => String a h :: t
               | [] => [String a EmptyString]
               end
          else String a EmptyString :: characters s'
      end
  end.

(** [s.split(c)] for a one-character separator. *)
Fixpoint split (c : ascii) (s : string) : list string :=
  match s with
  | EmptyString => [EmptyString]
  | String a s' =>
      if decide (a = c) then EmptyString :: split c s'
      else match split c s' with
           | h :: t => String a h :: t
           | [] => [String a EmptyString]
           end
  end.

Fixpoint join (c : ascii) (l : list string) : string :=
  match l with
  | [] => EmptyString
  | [s] => s
  | s :: l' => s +:+ String c (join c l')
  end.

(** [s.rsplit(c, 1)[0]] *)
Definition rsplit1_head (c : ascii) (s : string) : string :=
  match reverse (split c s) with
  | _ :: (_ :: _) as front => join c (reverse front)
  | _ => s
  end.

(** [sub in s] on strings. *)
Definition substring_of (sub s : string) : bool :=
  match String.index 0 sub s with Some _ => true | None => false end.

(** *** Dates: the proleptic Gregorian calendar of [datetime] *)

Record datetime := {
  year : Z; month : Z; day : Z; hour : Z; minute : Z; second : Z
}.

Definition civil_from_days (days : Z) : Z * Z * Z :=
  let z := days + 719468 in
  let era := z / 146097 in
  let doe := z - era * 146097 in
  let yoe := (doe - doe / 1460 + doe / 36524 - doe / 146096) / 365 in
  let doy := doe - (365 * yoe + yoe / 4 - yoe / 100) in
  let mp := (5 * doy + 2) / 153 in
  let d := doy - (153 * mp + 2) / 5 + 1 in
  let m := if mp <? 10 then mp + 3 else mp - 9 in
  let y := yoe + era * 400 + (if m <=? 2 then 1 else 0) in
  (y, m, d).

(** A naive [datetime] that is not taken apart is held as the seconds
    from 1970-01-01T00:00:00 to it. [int(dt.timestamp())] for such a [dt]:
    Python reads a naive [dt] as a time of the local zone of the process,
    which is [offset] seconds ahead of UTC. *)
Definition local_timestamp (offset dt : Z) : Z := dt - offset.

(** [datetime.utcfromtimestamp(t)] for whole seconds. *)
Definition utcfromtimestamp (t : Z) : datetime :=
  let '(y, m, d) := civil_from_days (t / 86400) in
  let s := t mod 86400 in
  {| year := y; month := m; day := d;
     hour := s / 3600; minute := (s mod 3600) / 60; second := s mod 60 |}.

Definition pad2 (n : Z) : string :=
  if n <? 10 then "0" +:+ pretty n else pretty n.

Definition pad4 (n : Z) : string :=
  if n <? 10 then "000" +:+ pretty n
  else if n <? 100 then "00" +:+ pretty n
  else if n <? 1000 then "0" +:+ pretty n
  else pretty n.

(** [dt.isoformat()] *)
Definition isoformat (dt : datetime) : string :=
  pad4 (year dt) +:+ "-" +:+ pad2 (month dt) +:+ "-" +:+ pad2 (day dt) +:+ "T"
  +:+ pad2 (hour dt) +:+ ":" +:+ pad2 (minute dt) +:+ ":" +:+ pad2 (second dt).

(** *** Numbers *)

(** A value that is an [int] or a [float]. *)
Inductive number : Type :=
| PyInt (n : Z)
| PyFloat (x : float).

(** [float(n)], correctly rounded. *)
Definition float_of_Z (n : Z) : float :=
  SF2Prim (binary_normalize prec emax n 0 false).

(** [a / b] on ints; exact operands (magnitudes below 2^53) give the
    correctly rounded quotient, as Python does. *)
Definition truediv (a b : Z) : result float :=
  if b =? 0 then Raise "division by zero"
  else Ok (PrimFloat.div (float_of_Z a) (float_of_Z b)).

(** The integer nearest to [num / den] ([den] positive), ties to even. *)
Definition round_half_even (num den : Z) : Z :=
  let q := num / den in
  let r := num mod den in
  match 2 * r ?= den with
  | Lt => q
  | Gt => q + 1
  | Eq => if Z.even q then q else q + 1
  end.

(** [round(x, 2)] on a float: the exact binary value of [x] is rounded to
    two decimals, ties to even, and the float nearest to that decimal is
    returned. *)
Definition round2_float (x : float) : float :=
  match Prim2SF x with
  | S754_finite s m e =>
      let hundredths :=
        if 0 <=? e then Z.pos m * 100 * 2 ^ e
        else round_half_even (Z.pos m * 100) (2 ^ (- e)) in
      let r := PrimFloat.div (float_of_Z hundredths) (float_of_Z 100) in
      if s then PrimFloat.opp r else r
  | _ => x
  end.

(** [round(v, 2)]: an [int] is returned as it is. *)
Definition round2 (v : number) : number :=
  match v with
  | PyInt n => PyInt n
  | PyFloat x => PyFloat (round2_float x)
  end.

(** *** Sorting *)

(** [sorted(l, key=key, reverse=True)]: decreasing keys, and elements with
    equal keys in the order they have in [l]. Python's sort is stable, and
    a stable sort has one possible result; it is computed here by
    insertion. *)
Fixpoint insert_reverse {A} (key : A → Z) (x : A) (l : list A) : list A :=
  match l with
  | [] => [x]
  | y :: l' => if key y <=? key x then x :: l else y :: insert_reverse key x l'
  end.

Definition sorted_reverse {A} (key : A → Z) (l : list A) : list A :=
  foldr (insert_reverse key) [] l.

(** [a] may stand before [b] in a list of decreasing keys. *)
Definition decreasing {A} (key : A → Z) (a b : A) : Prop := key b ≤ key a.

End Py.

(** ** JSON values, as [json.loads] builds them *)

Module Json.
Import Py.

(** Numbers are integers here; JSON floats do not occur in the messages
    the worker reads fields of. An object is the dict built from it. *)
Inductive json : Type :=
| JNull
| JBool (b : bool)
| JNum (n : Z)
| JStr (s : string)
| JArr (l : list json)
| JObj (o : list (string * json)).

(** [key in j] *)
Definition contains (key : string) (j : json) : result bool :=
  match j with
  | JObj o => Ok (bool_decide (is_Some (dict_get o key)))
  | JArr l =>
      Ok (existsb (λ x, match x with JStr s => String.eqb s key | _ => false end) l)
  | JStr s => Ok (substring_of key s)
  | JNull | JBool _ | JNum _ => Raise "argument is not iterable"
  end.

(** [j[key]] for a string [key] *)
Definition subscript (j : json) (key : string) : result json :=
  match j with
  | JObj o =>
      match dict_get o key with
      | Some v => Ok v
      | None => Raise ("'" +:+ key +:+ "'")
      end
  | JArr _ => Raise "list indices must be integers or slices, not str"
  | JStr _ => Raise "string indices must be integers, not 'str'"
  | JNull | JBool _ | JNum _ => Raise "object is not subscriptable"
  end.

(** The elements a [for] loop over [j] visits. *)
Definition iterate (j : json) : result (list json) :=
  match j with
  | JArr l => Ok l
  | JObj o => Ok (map (λ kv, JStr kv.1) o)
  | JStr s => Ok (JStr <$> characters s)
  | JNull | JBool _ | JNum _ => Raise "object is not iterable"
  end.

End Json.

(** ** The ingestion worker: [lambda/processor/index.py] *)

Module Processor.
Import Py Json.

(** The item [update_metadata] writes. [fileName] and [fileSize] are taken
    from the notification as they come. *)
Record item := {
  fileId : string;
  fileName : json;
  processingStatus : string;
  uploadTimestamp : Z;
  fileSize : json;
  lastUpdated : string;
  processedKey : option string;
  recordCount : option Z;
  errorMessage : option string
}.

(** A value of a [csv.DictReader] row: a field, [None] for a field the row
    lacks ([restval]), or the list of the fields beyond the header
    (stored under the key [None], the [restkey]). *)
Inductive cell : Type :=
| CStr (s : string)
| CNone
| CRest (l : list string).

Record csv_summary := {
  total_records : Z;
  valid_records : Z;
  invalid_records : Z
}.

Record processed_data := {
  summary : csv_summary;
  records : list (list (string * cell));
  processed_timestamp : string
}.

(** What the outside does at its n-th interaction with the worker: the
    time [datetime.utcnow()] reads (epoch seconds), the identifier
    [uuid.uuid4()] draws, and the exception an AWS call raises, if any;
    and the offset of the local time of the process from UTC, in
    seconds. *)
Record env := {
  utcnow : nat → Z;
  uuid4 : nat → string;
  fault : nat → option string;
  utcoffset : Z
}.

(** The stores. The text of an object is held as the rows [csv.reader]
    yields on it, the header first. *)
Record world := {
  tick : nat;
  metadata : gmap string item;
  raw : gmap (string * string) (list (list string));
  processed : gmap string processed_data
}.

Definition bump (w : world) : world :=
  {| tick := S (tick w); metadata := metadata w; raw := raw w;
     processed := processed w |}.

(** A message of the batch: [body] is what [json.loads(record['body'])]
    gives, [Raise] when the text does not parse. *)
Record sqs_record := { body : result json }.

(** The locals of [handler] and the stores. *)
Record frame := {
  successful : Z;
  failed : Z;
  stores : world
}.

Record response := {
  statusCode : Z;
  body_successful : Z;
  body_failed : Z
}.

(** Runs a computation on the stores inside [handler]'s frame. *)
Definition in_stores {A} (m : M world A) : M frame A :=
  λ f, let '(r, w) := m (stores f) in
       (r, {| successful := successful f; failed := failed f; stores := w |}).

Definition incr_successful : M frame unit :=
  modify (λ f, {| successful := successful f + 1; failed := failed f;
                  stores := stores f |}).

Definition incr_failed : M frame unit :=
  modify (λ f, {| successful := successful f; failed := failed f + 1;
                  stores := stores f |}).

(** *** [csv.DictReader] *)

(** The dict [DictReader.__next__] builds from the header and a row. *)
Definition dict_row (fieldnames r : list string)
    : list (option string * cell) :=
  let d := dict_of (zip (Some <$> fieldnames) (CStr <$> r)) in
  let lf := length fieldnames in
  let lr := length r in
  if (lf <? lr)%nat then dict_set d None (CRest (drop lf r))
  else fold_left (λ d key, dict_set d (Some key) CNone) (drop lr fieldnames) d.

(** The rows the reader yields: the first row is the header, blank rows
    after it are skipped. *)
Definition DictReader (csv_content : list (list string))
    : list (list (option string * cell)) :=
  match csv_content with
  | [] => []
  | fieldnames :: rest => dict_row fieldnames <$> filter (λ r, r ≠ []) rest
  end.

(** [{k.strip(): v.strip() if isinstance(v, str) else v for k, v in
    row.items()}]: [k.strip()] raises on the key [None]. *)
Fixpoint clean_items (items : list (option string * cell))
    (acc : list (string * cell)) : result (list (string * cell)) :=
  match items with
  | [] => Ok acc
  | (None, _) :: _ => Raise "'NoneType' object has no attribute 'strip'"
  | (Some k, v) :: items' =>
      let v' := match v with CStr s => CStr (strip s) | _ => v end in
      clean_items items' (dict_set acc (strip k) v')
  end.

Section with_env.
Variable E : env.

(** [datetime.utcnow()] *)
Definition now : M world Z := λ w, (Ok (utcnow E (tick w)), bump w).

(** [str(uuid.uuid4())] *)
Definition new_uuid : M world string := λ w, (Ok (uuid4 E (tick w)), bump w).

(** A call to an AWS service: it raises when the environment says so. *)
Definition service {A} (call : M world A) : M world A :=
  λ w, match fault E (tick w) with
       | Some msg => (Raise msg, bump w)
       | None => call (bump w)
       end.

(** Modelled from the spec: the key schema of the metadata table is not
    in the sources; the store is keyed by the record identifier and a
    write replaces the whole item. *)
Definition put_item (it : item) : M world unit :=
  service (λ w, (Ok tt, {| tick := tick w;
                           metadata := <[fileId it := it]> (metadata w);
                           raw := raw w; processed := processed w |})).

(** [s3_client.get_object(...)['Body'].read().decode('utf-8')] *)
Definition get_object (bucket key : json) : M world (list (list string)) :=
  service (λ w,
    match bucket, key with
    | JStr b, JStr k =>
        match raw w !! (b, k) with
        | Some content => (Ok content, w)
        | None => (Raise "NoSuchKey", w)
        end
    | _, _ => (Raise "Parameter validation failed", w)
    end).

(** [s3_client.put_object(Bucket=PROCESSED_BUCKET, Key=key, Body=...)] *)
Definition put_object (key : string) (data : processed_data) : M world unit :=
  service (λ w, (Ok tt, {| tick := tick w; metadata := metadata w;
                           raw := raw w;
                           processed := <[key := data]> (processed w) |})).

(** The body of the loop of [process_csv_data] on one row. *)
Definition process_row (acc : csv_summary * list (list (string * cell)))
    (row : list (option string * cell))
    : M world (csv_summary * list (list (string * cell))) :=
  let '(sm, recs) := acc in
  let sm := {| total_records := total_records sm + 1;
               valid_records := valid_records sm;
               invalid_records := invalid_records sm |} in
  try_except
    (cleaned_row ← lift (clean_items row []);
     t ← now;
     let cleaned_row :=
       dict_set cleaned_row "processed_at" (CStr (isoformat (utcfromtimestamp t))) in
     u ← new_uuid;
     let cleaned_row := dict_set cleaned_row "row_id" (CStr u) in
     mret ({| total_records := total_records sm;
              valid_records := valid_records sm + 1;
              invalid_records := invalid_records sm |},
           recs ++ [cleaned_row]))
    (λ e, mret ({| total_records := total_records sm;
                   valid_records := valid_records sm;
                   invalid_records := invalid_records sm + 1 |}, recs)).

Fixpoint process_rows (rows : list (list (option string * cell)))
    (acc : csv_summary * list (list (string * cell)))
    : M world (csv_summary * list (list (string * cell))) :=
  match rows with
  | [] => mret acc
  | row :: rows' => acc' ← process_row acc row; process_rows rows' acc'
  end.

Definition process_csv_data (csv_content : list (list string))
    : M world processed_data :=
  '(sm, recs) ← process_rows (DictReader csv_content)
                  ({| total_records := 0; valid_records := 0;
                      invalid_records := 0 |}, []);
  t ← now;
  mret {| summary := sm; records := recs;
          processed_timestamp := isoformat (utcfromtimestamp t) |}.

Definition update_metadata (file_id : string) (file_name : json)
    (status : string) (file_size : json) (processed_key : option string)
    (record_count : option Z) (error_message : option string)
    : M world unit :=
  timestamp ← now;
  updated ← now;
  put_item
    {| fileId := file_id;
       fileName := file_name;
       processingStatus := status;
       uploadTimestamp := local_timestamp (utcoffset E) timestamp;
       fileSize := file_size;
       lastUpdated := isoformat (utcfromtimestamp updated);
       processedKey := if truthy_str processed_key then processed_key else None;
       recordCount := record_count;
       errorMessage := if truthy_str error_message then error_message else None |}.

Definition generate_output_key (input_key : json) : M world string :=
  match input_key with
  | JStr input_key =>
      let filename :=
        rsplit1_head "." (List.last (split "/" input_key) EmptyString) in
      t ← now;
      let dt := utcfromtimestamp t in
      mret ("processed/" +:+ pretty (year dt) +:+ "/" +:+ pad2 (month dt)
            +:+ "/" +:+ pad2 (day dt) +:+ "/" +:+ filename +:+ "_"
            +:+ pad2 (hour dt) +:+ pad2 (minute dt) +:+ pad2 (second dt)
            +:+ ".json")
  | _ => mthrow "object has no attribute 'split'"
  end.

(** Lines 66-68: the three fields read from the notification. *)
Definition event_details (s3_record : json) : result (json * json * json) :=
  bucket_name ← (subscript s3_record "s3" ≫= λ j, subscript j "bucket"
                   ≫= λ j, subscript j "name");
  object_key ← (subscript s3_record "s3" ≫= λ j, subscript j "object"
                  ≫= λ j, subscript j "key");
  file_size ← (subscript s3_record "s3" ≫= λ j, subscript j "object"
                 ≫= λ j, subscript j "size");
  mret (bucket_name, object_key, file_size).

(** Lines 75-109: what the [try] block does once [file_id] is bound. *)
Definition ingest (bucket_name object_key file_size : json)
    (file_id : string) : M world unit :=
  update_metadata file_id object_key "PROCESSING" file_size None None None;;
  file_content ← get_object bucket_name object_key;
  data ← process_csv_data file_content;
  output_key ← generate_output_key object_key;
  put_object output_key data;;
  update_metadata file_id object_key "COMPLETED" file_size (Some output_key)
    (Some (Z.of_nat (length (records data)))) None.

(** The [except] clause of [process_s3_event]. Its write reads the locals
    [file_id], [object_key] and [file_size]; when the exception came
    before [file_id] was assigned, reading it raises [NameError]. The
    inner bare [except] swallows whatever the write raises. *)
Definition on_error (locals : option (string * json * json)) (e : string)
    : M world bool :=
  try_except
    match locals with
    | Some (file_id, object_key, file_size) =>
        update_metadata file_id object_key "FAILED" file_size None None (Some e)
    | None => mthrow "local variable 'file_id' referenced before assignment"
    end
    (λ _, mret tt);;
  mret false.

Definition process_s3_event (s3_record : json) : M world bool :=
  try_except
    ('(bucket_name, object_key, file_size) ← lift (event_details s3_record);
     file_id ← new_uuid;
     try_except
       (ingest bucket_name object_key file_size file_id;; mret true)
       (on_error (Some (file_id, object_key, file_size))))
    (on_error None).

(** The body of the outer loop of [handler], lines 35-50. *)
Definition handle_record (record : sqs_record) : M frame unit :=
  try_except
    (message_body ← lift (body record);
     has_records ← lift (contains "Records" message_body);
     if has_records : bool then
       events ← lift (subscript message_body "Records" ≫= iterate);
       for_each events (λ s3_record,
         result ← in_stores (process_s3_event s3_record);
         if result : bool then incr_successful else incr_failed)
     else mret tt)
    (λ _, incr_failed).

Definition handler (event : list sqs_record) : M world response :=
  λ w,
    let '(r, f) :=
      for_each event handle_record
        {| successful := 0; failed := 0; stores := w |} in
    (r ;; mret {| statusCode := 200; body_successful := successful f;
                  body_failed := failed f |},
     stores f).

End with_env.

End Processor.

(** ** The report generator: [lambda/reporter/index.py] *)

Module Reporter.
Import Py.

(** A metadata item as a scan returns it. The reporter reads every
    attribute with [item.get], so each may be absent; numeric attributes
    are integers, as the ingestion worker writes them. *)
Record item := {
  fileName : option string;
  processingStatus : option string;
  uploadTimestamp : option Z;
  fileSize : option Z;
  recordCount : option Z;
  errorMessage : option string
}.

(** The settings of the process: the [ENVIRONMENT] variable and the offset
    of its local time from UTC, in seconds. *)
Record config := {
  ENVIRONMENT : string;
  utcoffset : Z
}.

Record report_metadata := {
  generated_at : string;
  report_period_start : string;
  report_period_end : string;
  environment : string
}.

Record summary := {
  total_files_processed : Z;
  successful_files : Z;
  failed_files : Z;
  in_progress_files : Z;
  success_rate_percent : number;
  total_records_processed : Z;
  total_data_size_mb : float
}.

Record hour_stats := { count : Z; completed : Z; failed : Z }.

Record error_entry := {
  error_fileName : string;
  error : string;
  timestamp : string
}.

Record top_file := {
  top_fileName : option string;
  top_recordCount : Z
}.

Record report := {
  metadata : report_metadata;
  report_summary : summary;
  hourly_breakdown : list (string * hour_stats);
  errors : list error_entry;
  top_files : list top_file
}.

(** *** The scan of the metadata table *)

Record scan_response := {
  Items : list item;
  LastEvaluatedKey : option nat
}.

(** [Attr('uploadTimestamp').between(lo, hi)] *)
Definition between (lo hi : Z) (it : item) : bool :=
  match uploadTimestamp it with
  | Some t => (lo <=? t) && (t <=? hi)
  | None => false
  end.

(** [table.scan(FilterExpression=keep, ExclusiveStartKey=key)]. The table
    is given by the pages a scan walks through: a call evaluates one page,
    returns the items of it that pass the filter, and a continuation key
    as long as a page is left. *)
Definition scan (table : list (list item)) (keep : item → bool)
    (ExclusiveStartKey : option nat) : scan_response :=
  let k := default 0%nat ExclusiveStartKey in
  {| Items := List.filter keep (default [] (table !! k));
     LastEvaluatedKey :=
       if (S k <? length table)%nat then Some (S k) else None |}.

(** The [while 'LastEvaluatedKey' in response] loop, lines 89-94; [None]
    when [fuel] iterations do not end it. *)
Fixpoint follow_pages (fuel : nat) (table : list (list item))
    (keep : item → bool) (response : scan_response) (items : list item)
    : option (list item) :=
  match LastEvaluatedKey response with
  | None => Some items
  | Some key =>
      match fuel with
      | O => None
      | S fuel' =>
          let response := scan table keep (Some key) in
          follow_pages fuel' table keep response (items ++ Items response)
      end
  end.

Definition fetch_report_data (fuel : nat) (table : list (list item))
    (start_timestamp end_timestamp : Z) : option (list item) :=
  let response := scan table (between start_timestamp end_timestamp) None in
  follow_pages fuel table (between start_timestamp end_timestamp) response
    (Items response).

(** *** The report *)

(** [item.get('processingStatus') == status] *)
Definition status_is (status : string) (it : item) : bool :=
  bool_decide (processingStatus it = Some status).

(** [datetime.fromtimestamp(t)]: local time. Python raises on a [t] outside
    the years 1 to 9999; such timestamps are outside this model. *)
Definition fromtimestamp (cfg : config) (t : Z) : datetime :=
  utcfromtimestamp (t + utcoffset cfg).

(** [dt.strftime('%Y-%m-%d %H:00')] *)
Definition hour_key (dt : datetime) : string :=
  pad4 (year dt) +:+ "-" +:+ pad2 (month dt) +:+ "-" +:+ pad2 (day dt)
  +:+ " " +:+ pad2 (hour dt) +:+ ":00".

(** The body of the loop over [data] of lines 118-129. *)
Definition hourly_step (cfg : config) (hourly_stats : list (string * hour_stats))
    (it : item) : list (string * hour_stats) :=
  let hour := hour_key (fromtimestamp cfg (default 0 (uploadTimestamp it))) in
  let hourly_stats :=
    match dict_get hourly_stats hour with
    | Some _ => hourly_stats
    | None => dict_set hourly_stats hour {| count := 0; completed := 0; failed := 0 |}
    end in
  let st := default {| count := 0; completed := 0; failed := 0 |}
              (dict_get hourly_stats hour) in
  let st := {| count := count st + 1; completed := completed st;
               failed := failed st |} in
  let st :=
    if status_is "COMPLETED" it
    then {| count := count st; completed := completed st + 1; failed := failed st |}
    else if status_is "FAILED" it
    then {| count := count st; completed := completed st; failed := failed st + 1 |}
    else st in
  dict_set hourly_stats hour st.

(** The body of the loop over [data] of lines 133-139. *)
Definition errors_step (cfg : config) (errors : list error_entry) (it : item)
    : list error_entry :=
  if status_is "FAILED" it && truthy_str (errorMessage it)
  then errors ++ [{| error_fileName := default "Unknown" (fileName it);
                     error := default "No error message" (errorMessage it);
                     timestamp :=
                       isoformat (fromtimestamp cfg (default 0 (uploadTimestamp it))) |}]
  else errors.

(** [generate_report(data, start_time, end_time)]; [now] is the time
    [datetime.utcnow()] reads for [generated_at]. *)
Definition generate_report (cfg : config) (now : Z) (data : list item)
    (start_time end_time : Z) : result report :=
  let total_files := Z.of_nat (length data) in
  let completed_files :=
    sum ((λ _, 1) <$> List.filter (status_is "COMPLETED") data) in
  let failed_files :=
    sum ((λ _, 1) <$> List.filter (status_is "FAILED") data) in
  let processing_files :=
    sum ((λ _, 1) <$> List.filter (status_is "PROCESSING") data) in
  let total_records :=
    sum ((λ it, default 0 (recordCount it))
           <$> List.filter (λ it, truthy_int (recordCount it)) data) in
  let total_size_bytes := sum ((λ it, default 0 (fileSize it)) <$> data) in
  total_size_mb ← truediv total_size_bytes (1024 * 1024);
  success_rate ←
    (if 0 <? total_files
     then x ← truediv completed_files total_files;
          mret (PyFloat (PrimFloat.mul x (float_of_Z 100)))
     else mret (PyInt 0));
  let hourly_stats := fold_left (hourly_step cfg) data [] in
  let errors := fold_left (errors_step cfg) data [] in
  mret
    {| metadata :=
         {| generated_at := isoformat (utcfromtimestamp now);
            report_period_start := isoformat (utcfromtimestamp start_time);
            report_period_end := isoformat (utcfromtimestamp end_time);
            environment := ENVIRONMENT cfg |};
       report_summary :=
         {| total_files_processed := total_files;
            successful_files := completed_files;
            failed_files := failed_files;
            in_progress_files := processing_files;
            success_rate_percent := round2 success_rate;
            total_records_processed := total_records;
            total_data_size_mb := round2_float total_size_mb |};
       hourly_breakdown := hourly_stats;
       errors := take 10 errors;
       top_files :=
         take 10
           (sorted_reverse top_recordCount
              ((λ it, {| top_fileName := fileName it;
                         top_recordCount := default 0 (recordCount it) |})
                 <$> List.filter (λ it, truthy_int (recordCount it)) data)) |}.

End Reporter.

(** ** The statements of the design document, in its own words

    Each definition here follows the wording of the document, not the code;
    the theorems below compare the two. *)

Module Spec.
Import Py Reporter.

(** "sum of recordCount over COMPLETED records with that field present" *)
Definition total_records (data : list item) : Z :=
  foldr Z.add 0
    ((λ it, default 0 (recordCount it))
       <$> List.filter
             (λ it, status_is "COMPLETED" it && bool_decide (is_Some (recordCount it)))
             data).

(** The entry of the top-files list for a record. *)
Definition top_entry (it : item) : top_file :=
  {| top_fileName := fileName it; top_recordCount := default 0 (recordCount it) |}.

(** "the top 10 records by recordCount descending among records that have
    a recordCount, using a full sort (stable tie-break by original
    order)" *)
Definition top_files (data : list item) : list top_file :=
  take 10
    (sorted_reverse top_recordCount
       (top_entry <$> List.filter (λ it, bool_decide (is_Some (recordCount it))) data)).

(** "completed/total×100": the quotient and the product of floats. *)
Definition percentage (completed total : Z) : float :=
  PrimFloat.mul (PrimFloat.div (float_of_Z completed) (float_of_Z total))
    (float_of_Z 100).

(** "rounded to 2 decimals". A finite float of mantissa [m] and exponent
    [e] has the value [m * 2^e]; a hundred times this value is the fraction
    [numerator / denominator] below. The value rounded to two decimals is
    [k] hundredths when no number of hundredths is nearer to it than [k],
    and [k] is even if another one is as near. *)
Definition nearest_hundredths (m : positive) (e : Z) (k : Z) : Prop :=
  let numerator := 100 * Z.pos m * 2 ^ Z.max e 0 in
  let denominator := 2 ^ Z.max (- e) 0 in
  (∀ j, Z.abs (k * denominator - numerator) ≤ Z.abs (j * denominator - numerator))
  ∧ (∀ j, j ≠ k →
          Z.abs (j * denominator - numerator) = Z.abs (k * denominator - numerator) →
          Z.even k = true).

(** The float of the decimal number [k / 100]: 33.33 for 3333. *)
Definition hundredths (k : Z) : float :=
  PrimFloat.div (float_of_Z k) (float_of_Z 100).

(** [y] is [x] rounded to two decimals; a zero, an infinity and a NaN have
    no decimals to round. *)
Definition rounded_to_2_decimals (x y : float) : Prop :=
  match Prim2SF x with
  | S754_finite negative m e =>
      ∃ k, nearest_hundredths m e k
           ∧ y = if negative then PrimFloat.opp (hundredths k) else hundredths k
  | _ => y = x
  end.

(** "every FAILED record with a non-empty error detail" *)
Definition failed_with_detail (it : item) : bool :=
  match processingStatus it, errorMessage it with
  | Some status, Some detail =>
      String.eqb status "FAILED" && negb (String.eqb detail "")
  | _, _ => false
  end.

(** "failure detail entries (name, message, timestamp)" *)
Definition failure_entry (cfg : config) (it : item) : error_entry :=
  {| error_fileName := default "Unknown" (fileName it);
     error := default "" (errorMessage it);
     timestamp := isoformat (fromtimestamp cfg (default 0 (uploadTimestamp it))) |}.

(** A data row of a delimited input leaves the header short: it has more
    fields than the header names. *)
Definition overlong (header row : list string) : bool :=
  (length header <? length row)%nat.

End Spec.

(** ** Batches of the ingestion worker, event by event *)

Module Batch.
Import Py Json Processor.

(** The embedded events of an envelope, "zero or more"; [Raise] for an
    envelope that is rejected as a whole. *)
Definition embedded_events (record : sqs_record) : result (list json) :=
  message_body ← body record;
  has_records ← contains "Records" message_body;
  if has_records : bool
  then subscript message_body "Records" ≫= iterate
  else mret [].

Definition events_of (record : sqs_record) : list json :=
  match embedded_events record with
  | Ok events => events
  | Raise _ => []
  end.

Definition rejected (record : sqs_record) : bool :=
  negb (is_ok (embedded_events record)).

(** Every embedded event of the batch, in the order of the batch. *)
Definition all_events (event : list sqs_record) : list json :=
  concat (events_of <$> event).

(** The events processed one after the other, each on the stores the one
    before it left: the outcome of each, and the stores at the end. *)
Fixpoint outcomes (E : env) (events : list json) (w : world)
    : list bool * world :=
  match events with
  | [] => ([], w)
  | s3_record :: events' =>
      let '(r, w1) := process_s3_event E s3_record w in
      let '(bs, w2) := outcomes E events' w1 in
      (match r with Ok b => b | Raise _ => false end :: bs, w2)
  end.

(** The result that reports [bs] as the outcomes of the events and [n]
    rejected envelopes. *)
Definition tally (bs : list bool) (n : nat) : response :=
  {| statusCode := 200;
     body_successful := Z.of_nat (length (List.filter id bs));
     body_failed := Z.of_nat (length (List.filter negb bs)) + Z.of_nat n |}.

(** A parsed body that is no container: a number, a boolean or null. *)
Definition scalar (j : json) : bool :=
  match j with
  | JNull | JBool _ | JNum _ => true
  | JStr _ | JArr _ | JObj _ => false
  end.

(** The same invocation result with one more failure counted. *)
Definition one_more_failure (out : result response * world)
    : result response * world :=
  match out with
  | (Ok r, w) =>
      (Ok {| statusCode := statusCode r;
             body_successful := body_successful r;
             body_failed := body_failed r + 1 |}, w)
  | (Raise e, w) => (Raise e, w)
  end.

End Batch.

(** ** Inputs used in the examples *)

Module Examples.
Import Py Json.

(** A clock that advances five seconds between two interactions, distinct
    identifiers, and services that never fail. *)
Definition calm : Processor.env :=
  {| Processor.utcnow := λ n, 1700000000 + 5 * Z.of_nat n;
     Processor.uuid4 := λ n, "id-" +:+ pretty n;
     Processor.fault := λ _, None;
     Processor.utcoffset := 0 |}.

(** The descriptor of one uploaded object, as S3 sends it. *)
Definition uploaded (bucket key : string) (size : Z) : json :=
  JObj [("s3", JObj [("bucket", JObj [("name", JStr bucket)]);
                      ("object", JObj [("key", JStr key); ("size", JNum size)])])].

(** An upload bucket holding [data/a.csv], two columns and two rows. *)
Definition one_object : Processor.world :=
  {| Processor.tick := 0;
     Processor.metadata := ∅;
     Processor.raw := {[ ("uploads", "data/a.csv") := [["a"; "b"]; ["1"; "2"]; ["3"; "4"]] ]};
     Processor.processed := ∅ |}.

Definition dev : Reporter.config :=
  {| Reporter.ENVIRONMENT := "dev"; Reporter.utcoffset := 0 |}.

Definition record (name status : string) (uploaded_at : Z)
    (count : option Z) (detail : option string) : Reporter.item :=
  {| Reporter.fileName := Some name;
     Reporter.processingStatus := Some status;
     Reporter.uploadTimestamp := Some uploaded_at;
     Reporter.fileSize := Some 1024;
     Reporter.recordCount := count;
     Reporter.errorMessage := detail |}.

(** Three COMPLETED and two FAILED records. *)
Definition three_of_five : list Reporter.item :=
  [record "a.csv" "COMPLETED" 1700000000 (Some 5) None;
   record "b.csv" "FAILED" 1700000100 None (Some "NoSuchKey");
   record "c.csv" "COMPLETED" 1700003700 (Some 7) None;
   record "d.csv" "FAILED" 1700000200 None (Some "AccessDenied");
   record "e.csv" "COMPLETED" 1700000300 (Some 5) None].

(** One COMPLETED record, one FAILED and one still PROCESSING. *)
Definition one_of_three : list Reporter.item :=
  [record "a.csv" "COMPLETED" 1700000000 (Some 5) None;
   record "b.csv" "FAILED" 1700000100 None (Some "NoSuchKey");
   record "c.csv" "PROCESSING" 1700000200 None None].

(** A table of 150 records of the window, scanned in pages of 100. *)
Definition two_pages : list (list Reporter.item) :=
  [replicate 100 (record "a.csv" "COMPLETED" 1700000000 (Some 5) None);
   replicate 50 (record "b.csv" "COMPLETED" 1700000100 (Some 7) None)].

End Examples.

(** ** What the ingestion worker keeps of its stores *)

Module Stores.
Import Py Json Processor.

(** [m] takes every state to one that is related to it by [R], whether it
    returns or raises. *)
Definition steps {S A} (R : S → S → Prop) (m : M S A) : Prop :=
  ∀ s, R s (m s).2.

(** [w'] is [w] after some work: the upload bucket is as it was, and no
    metadata record and no processed object has gone. *)
Definition grows (w w' : world) : Prop :=
  raw w' = raw w
  ∧ (∀ id, is_Some (metadata w !! id) → is_Some (metadata w' !! id))
  ∧ (∀ key, is_Some (processed w !! key) → is_Some (processed w' !! key))
  ∧ (tick w ≤ tick w')%nat.

(** [m] returns only values that satisfy [P]. *)
Definition returns {A} (P : A → Prop) (m : M world A) : Prop :=
  ∀ w a w', m w = (Ok a, w') → P a.

(** [w'] has the tables and buckets of [w]; only the count of
    interactions may differ. *)
Definition same_stores (w w' : world) : Prop :=
  metadata w' = metadata w ∧ raw w' = raw w ∧ processed w' = processed w.

(** The items the worker writes: the three calls of [update_metadata] in
    [process_s3_event], lines 76, 102 and 120. *)
Inductive written : item → Prop :=
| written_processing (file_id : string) (object_key file_size : json)
    (timestamp : Z) (updated : string) :
    written {| fileId := file_id; fileName := object_key;
               processingStatus := "PROCESSING"; uploadTimestamp := timestamp;
               fileSize := file_size; lastUpdated := updated;
               processedKey := None; recordCount := None; errorMessage := None |}
| written_completed (file_id : string) (object_key file_size : json)
    (timestamp : Z) (updated output_key : string) (record_count : Z) :
    output_key ≠ EmptyString →
    0 ≤ record_count →
    written {| fileId := file_id; fileName := object_key;
               processingStatus := "COMPLETED"; uploadTimestamp := timestamp;
               fileSize := file_size; lastUpdated := updated;
               processedKey := Some output_key;
               recordCount := Some record_count; errorMessage := None |}
| written_failed (file_id : string) (object_key file_size : json)
    (timestamp : Z) (updated : string) (error_message : option string) :
    error_message ≠ Some EmptyString →
    written {| fileId := file_id; fileName := object_key;
               processingStatus := "FAILED"; uploadTimestamp := timestamp;
               fileSize := file_size; lastUpdated := updated;
               processedKey := None; recordCount := None;
               errorMessage := error_message |}.

(** The attributes an item carries, by its status. *)
Definition well_formed (it : item) : Prop :=
  processingStatus it ∈ ["PROCESSING"; "COMPLETED"; "FAILED"]
  ∧ (is_Some (recordCount it) ↔ processingStatus it = "COMPLETED")
  ∧ (is_Some (processedKey it) ↔ processingStatus it = "COMPLETED")
  ∧ (is_Some (errorMessage it) → processingStatus it = "FAILED")
  ∧ processedKey it ≠ Some EmptyString
  ∧ errorMessage it ≠ Some EmptyString.

(** Every record is stored under its own identifier and is well formed. *)
Definition table_ok (w : world) : Prop :=
  ∀ id it, metadata w !! id = Some it → fileId it = id ∧ well_formed it.

(** A table that is well formed stays so. *)
Definition keeps_table (w w' : world) : Prop := table_ok w → table_ok w'.

(** A record of the report generator shows the status and the record
    count of an item of the worker, as a scan returns them. *)
Definition shows (it : item) (scanned : Reporter.item) : Prop :=
  Reporter.processingStatus scanned = Some (processingStatus it)
  ∧ Reporter.recordCount scanned = recordCount it.

End Stores.

(** ** The rows of the processed output *)

Module Rows.
Import Py Processor.

(** [v.strip() if isinstance(v, str) else v] *)
Definition clean_cell (v : cell) : cell :=
  match v with CStr s => CStr (strip s) | _ => v end.

(** [(k.strip(), v.strip() if isinstance(v, str) else v)] *)
Definition clean_field (kv : string * cell) : string * cell :=
  (strip kv.1, clean_cell kv.2).

(** A data row under the header: [None] for the fields the row lacks. *)
Definition filled (header r : list string) : list (string * cell) :=
  zip header ((CStr <$> r) ++ replicate (length header - length r) CNone).

(** The dict [DictReader] yields for a data row that is not longer than
    the header. A name that the header repeats keeps its first place and
    takes the last of its values. *)
Definition read (header r : list string) : list (string * cell) :=
  dict_of (filled header r).

(** The dict comprehension of lines 152-155 on that dict: names and values
    trimmed. Names that are equal once trimmed become one entry, which has
    the place of the first and the value of the last of them. *)
Definition cleaned (header r : list string) : list (string * cell) :=
  dict_of (clean_field <$> read header r).

(** A record of the output: the cleaned row with the two fields that lines
    158-159 set. A field of the row that bears one of the two names is
    overwritten. *)
Definition record_of (header r : list string) (processed_at row_id : string)
    : list (string * cell) :=
  dict_set (dict_set (cleaned header r) "processed_at" (CStr processed_at))
    "row_id" (CStr row_id).

(** The rows the transform accepts: the data rows that are not blank and
    have no more fields than the header. *)
Definition valid_rows (header : list string) (rows : list (list string))
    : list (list string) :=
  List.filter (λ r, negb (Spec.overlong header r)) (filter (λ r, r ≠ []) rows).

(** The fields of a data row under the header: names and values trimmed,
    [None] for the fields the row lacks. *)
Definition trimmed (header r : list string) : list (string * cell) :=
  zip (strip <$> header)
      ((CStr ∘ strip <$> r) ++ replicate (length header - length r) CNone).

(** A processed record, field by field: the trimmed row, then the two
    fields the worker adds. *)
Definition stamped (header r : list string) (processed_at row_id : string)
    : list (string * cell) :=
  trimmed header r
  ++ [("processed_at", CStr processed_at); ("row_id", CStr row_id)].

End Rows.

(** ** Sums over a report *)

Module Totals.
Import Py Reporter.

(** The sum of one counter over the buckets of the hourly breakdown. *)
Definition over_hours (counter : hour_stats → Z)
    (hourly : list (string * hour_stats)) : Z :=
  foldr Z.add 0 (counter ∘ snd <$> hourly).

(** The status of the record is none of the three the report counts. *)
Definition other_status (it : item) : bool :=
  negb (status_is "COMPLETED" it || status_is "FAILED" it
        || status_is "PROCESSING" it).

(** 1 for [true], 0 for [false]. *)
Definition one_if (b : bool) : Z := if b then 1 else 0.

End Totals.

(** ** The run of the report generator

    [handler], [fetch_report_data] with the calls it makes, [save_report_to_s3],
    [send_notification] and [send_error_notification] of
    [lambda/reporter/index.py]. The texts that are written, which format
    floats with Python's [repr], are not modelled: an object of the reports
    bucket is held as the report it renders and the format it is rendered
    in, a notification as its subject and what its message is about. *)

Module Delivery.
Import Py Reporter.

(** What the outside does at its n-th interaction with the generator: the
    time [datetime.utcnow()] reads (epoch seconds) and the exception an AWS
    call raises, if any. *)
Record env := {
  utcnow : nat → Z;
  fault : nat → option string
}.

(** The body of an object: [json.dumps(report, indent=2, ...)] with content
    type [application/json], or [generate_html_report(report)] with content
    type [text/html]. *)
Inductive document : Type :=
| JsonOf (r : report)
| HtmlOf (r : report).

(** The message of a notification: the summary of a report with the key it
    is stored under, or the reason of a failure. *)
Inductive message : Type :=
| SummaryOf (r : report) (report_key : string)
| FailureOf (error_message : string).

(** The metadata table, by the pages a scan walks through; the objects put
    into the reports bucket and the notifications published, each in the
    order of the calls. *)
Record world := {
  tick : nat;
  table : list (list item);
  reports : list (string * document);
  published : list (string * message)
}.

(** The body of the invocation result. *)
Inductive outcome : Type :=
| Generated (report_key : string)
| Failed (error : string).

Record response := {
  statusCode : Z;
  body : outcome
}.

Definition bump (w : world) : world :=
  {| tick := S (tick w); table := table w; reports := reports w;
     published := published w |}.

(** [s.upper()] on the ASCII range. *)
Definition upper_char (c : ascii) : ascii :=
  let n := nat_of_ascii c in
  if ((97 <=? n) && (n <=? 122))%nat then ascii_of_nat (n - 32) else c.

Fixpoint upper (s : string) : string :=
  match s with
  | EmptyString => EmptyString
  | String c s' => String (upper_char c) (upper s')
  end.

(** [s.replace(old, new)] for a non-empty [old]: the occurrences of [old]
    are replaced from the left, without overlap; [skip] counts the characters
    of an occurrence still to be passed over. *)
Fixpoint replace_from (old new : string) (skip : nat) (s : string) : string :=
  match s with
  | EmptyString => EmptyString
  | String c s' =>
      match skip with
      | S skip' => replace_from old new skip' s'
      | O =>
          if String.prefix old s
          then new +:+ replace_from old new (String.length old - 1) s'
          else String c (replace_from old new 0 s')
      end
  end.

Definition replace (old new s : string) : string := replace_from old new 0 s.

(** [dt.strftime('%Y-%m-%d')] *)
Definition date_text (dt : datetime) : string :=
  pad4 (year dt) +:+ "-" +:+ pad2 (month dt) +:+ "-" +:+ pad2 (day dt).

(** [dt.strftime('%Y%m%d_%H%M%S')] *)
Definition stamp_text (dt : datetime) : string :=
  pad4 (year dt) +:+ pad2 (month dt) +:+ pad2 (day dt) +:+ "_"
  +:+ pad2 (hour dt) +:+ pad2 (minute dt) +:+ pad2 (second dt).

(** The key of the JSON report, line 175. *)
Definition report_key_at (timestamp : Z) : string :=
  let dt := utcfromtimestamp timestamp in
  "daily-reports/" +:+ pretty (year dt) +:+ "/" +:+ pad2 (month dt) +:+ "/"
  +:+ pad2 (day dt) +:+ "/report_" +:+ stamp_text dt +:+ ".json".

Section with_env.
Variables (E : env) (cfg : config).

(** [datetime.utcnow()] *)
Definition now : M world Z := λ w, (Ok (utcnow E (tick w)), bump w).

(** A call to an AWS service: it raises when the environment says so. *)
Definition service {A} (call : M world A) : M world A :=
  λ w, match fault E (tick w) with
       | Some msg => (Raise msg, bump w)
       | None => call (bump w)
       end.

(** [table.scan(FilterExpression=keep, ExclusiveStartKey=key)] *)
Definition scan_table (keep : item → bool) (key : option nat)
    : M world scan_response :=
  service (λ w, (Ok (scan (table w) keep key), w)).

(** [s3_client.put_object(Bucket=REPORTS_BUCKET, Key=key, Body=doc, ...)] *)
Definition put_object (key : string) (doc : document) : M world unit :=
  service (λ w, (Ok tt, {| tick := tick w; table := table w;
                           reports := reports w ++ [(key, doc)];
                           published := published w |})).

(** [sns_client.publish(TopicArn=SNS_TOPIC_ARN, Subject=subject,
    Message=msg)] *)
Definition publish (subject : string) (msg : message) : M world unit :=
  service (λ w, (Ok tt, {| tick := tick w; table := table w;
                           reports := reports w;
                           published := published w ++ [(subject, msg)] |})).

(** The [while 'LastEvaluatedKey' in response] loop of lines 89-94, for at
    most [fuel] rounds. *)
Fixpoint follow_pages (fuel : nat) (keep : item → bool)
    (response : scan_response) (items : list item) : M world (list item) :=
  match LastEvaluatedKey response with
  | None => mret items
  | Some key =>
      match fuel with
      | O => mthrow "the scan has not come to its end"
      | S fuel' =>
          response ← scan_table keep (Some key);
          follow_pages fuel' keep response (items ++ Items response)
      end
  end.

(** [fetch_report_data(start_time, end_time)]: lines 78-79 turn the two
    naive times into timestamps, which reads them as local times. *)
Definition fetch_report_data (fuel : nat) (start_time end_time : Z)
    : M world (list item) :=
  let start_timestamp := local_timestamp (utcoffset cfg) start_time in
  let end_timestamp := local_timestamp (utcoffset cfg) end_time in
  response ← scan_table (between start_timestamp end_timestamp) None;
  follow_pages fuel (between start_timestamp end_timestamp) response
    (Items response).

Definition save_report_to_s3 (r : report) (timestamp : Z) : M world string :=
  let report_key := report_key_at timestamp in
  put_object report_key (JsonOf r);;
  let html_key := replace ".json" ".html" report_key in
  put_object html_key (HtmlOf r);;
  mret report_key.

Definition send_notification (r : report) (report_key : string) : M world unit :=
  today ← now;
  let subject :=
    "Daily Data Processing Report - " +:+ upper (ENVIRONMENT cfg) +:+ " - "
    +:+ date_text (utcfromtimestamp today) in
  publish subject (SummaryOf r report_key).

Definition send_error_notification (error_message : string) : M world unit :=
  let subject :=
    "ERROR: Daily Report Generation Failed - " +:+ upper (ENVIRONMENT cfg) in
  _ ← now;
  publish subject (FailureOf error_message).

(** [handler(event, context)]. The loop of the fetch is given as many
    rounds as the table has pages, which it never exhausts. *)
Definition handler : M world response :=
  try_except
    (end_time ← now;
     let start_time := end_time - 86400 in
     w ← get;
     report_data ← fetch_report_data (length (table w)) start_time end_time;
     generated ← now;
     r ← lift (generate_report cfg generated report_data start_time end_time);
     report_key ← save_report_to_s3 r end_time;
     send_notification r report_key;;
     mret {| statusCode := 200; body := Generated report_key |})
    (λ e,
       send_error_notification e;;
       mret {| statusCode := 500; body := Failed e |}).

End with_env.

(** [w'] has the table, the reports and the notifications of [w]. *)
Definition quiet (w w' : world) : Prop :=
  table w' = table w ∧ reports w' = reports w ∧ published w' = published w.

(** The key of the HTML page that goes with the report of [timestamp]. *)
Definition html_key_at (timestamp : Z) : string :=
  let dt := utcfromtimestamp timestamp in
  "daily-reports/" +:+ pretty (year dt) +:+ "/" +:+ pad2 (month dt) +:+ "/"
  +:+ pad2 (day dt) +:+ "/report_" +:+ stamp_text dt +:+ ".html".

(** [s] has no dot. *)
Definition dotless (s : string) : Prop :=
  "."%char ∉ String.list_ascii_of_string s.

(** The subjects of the two notifications. *)
Definition report_subject (cfg : config) (today : Z) : string :=
  "Daily Data Processing Report - " +:+ upper (ENVIRONMENT cfg) +:+ " - "
  +:+ date_text (utcfromtimestamp today).

Definition error_subject (cfg : config) : string :=
  "ERROR: Daily Report Generation Failed - " +:+ upper (ENVIRONMENT cfg).

End Delivery.

(** ** Further inputs for the examples *)

Module MoreExamples.
Import Py Json Examples.

(** As [calm], but the call made at interaction 4, the download of the
    first event of a run from tick 0, is refused. *)
Definition refused_download : Processor.env :=
  {| Processor.utcnow := Processor.utcnow calm;
     Processor.uuid4 := Processor.uuid4 calm;
     Processor.fault := λ n, if (n =? 4)%nat then Some "AccessDenied" else None;
     Processor.utcoffset := 0 |}.

(** As [refused_download], and the write of the FAILED record, at
    interaction 7, fails as well. *)
Definition refused_twice : Processor.env :=
  {| Processor.utcnow := Processor.utcnow calm;
     Processor.uuid4 := Processor.uuid4 calm;
     Processor.fault := λ n,
       if (n =? 4)%nat then Some "AccessDenied"
       else if (n =? 7)%nat then Some "ProvisionedThroughputExceeded"
       else None;
     Processor.utcoffset := 0 |}.

(** The no-break space U+00A0 and the ideographic space U+3000. *)
Definition nbsp : string :=
  String (ascii_of_nat 194) (String (ascii_of_nat 160) EmptyString).

Definition wide_space : string :=
  String (ascii_of_nat 227)
    (String (ascii_of_nat 128) (String (ascii_of_nat 128) EmptyString)).

(** A descriptor that lacks the size of the object. *)
Definition no_size : json :=
  JObj [("s3", JObj [("bucket", JObj [("name", JStr "uploads")]);
                      ("object", JObj [("key", JStr "data/a.csv")])])].

(** A clock that advances one second between two interactions of the
    report generator, and services that never fail. *)
Definition on_time : Delivery.env :=
  {| Delivery.utcnow := λ n, 1700086400 + Z.of_nat n;
     Delivery.fault := λ _, None |}.

(** A process whose local time is five and a half hours ahead of UTC. *)
Definition ahead : Reporter.config :=
  {| Reporter.ENVIRONMENT := "prod"; Reporter.utcoffset := 19800 |}.

(** A table of two records, one uploaded a hundred seconds and one six
    hours before the clock of [on_time] is first read; nothing stored and
    nothing published yet. *)
Definition before_run : Delivery.world :=
  {| Delivery.tick := 0;
     Delivery.table :=
       [[record "recent.csv" "COMPLETED" 1700086300 (Some 5) None];
        [record "older.csv" "COMPLETED" 1700064800 (Some 7) None]];
     Delivery.reports := []; Delivery.published := [] |}.

(** The records of [two_pages] in pages of 75. *)
Definition two_even_pages : list (list Reporter.item) :=
  [replicate 75 (record "a.csv" "COMPLETED" 1700000000 (Some 5) None);
   replicate 25 (record "a.csv" "COMPLETED" 1700000000 (Some 5) None)
   ++ replicate 50 (record "b.csv" "COMPLETED" 1700000100 (Some 7) None)].

End MoreExamples.

(** ** Lists, sums and the stable sort *)

Section Lists.
Import Py.

Lemma fold_left_add_shift (l : list Z) (a : Z) :
  fold_left Z.add l a = a + fold_left Z.add l 0.
Proof.
  revert a. induction l as [|x l IH]; intros a; simpl.
  - lia.
  - rewrite (IH (a + x)), (IH (0 + x)). lia.
Qed.

Lemma sum_cons (x : Z) (l : list Z) : sum (x :: l) = x + sum l.
Proof. unfold sum. simpl. apply fold_left_add_shift. Qed.

Lemma sum_foldr (l : list Z) : sum l = foldr Z.add 0 l.
Proof.
  induction l as [|x l IH]; [reflexivity|].
  rewrite sum_cons, IH. reflexivity.
Qed.

Lemma sum_ones {A} (l : list A) : sum ((λ _, 1) <$> l) = Z.of_nat (length l).
Proof.
  induction l as [|x l IH]; [reflexivity|].
  rewrite fmap_cons, sum_cons, IH. simpl length. lia.
Qed.

Context {A : Type} (key : A → Z).

Lemma insert_reverse_perm (x : A) (l : list A) :
  insert_reverse key x l ≡ₚ x :: l.
Proof.
  induction l as [|y l IH]; simpl; [reflexivity|].
  destruct (key y <=? key x); [reflexivity|].
  rewrite IH. apply Permutation_swap.
Qed.

Lemma sorted_reverse_perm (l : list A) : sorted_reverse key l ≡ₚ l.
Proof.
  induction l as [|x l IH]; simpl; [reflexivity|].
  rewrite insert_reverse_perm. by f_equiv.
Qed.

Lemma insert_reverse_sorted (x : A) (l : list A) :
  StronglySorted (decreasing key) l → StronglySorted (decreasing key) (insert_reverse key x l).
Proof.
  induction 1 as [|y l Hl IH Hy]; simpl.
  - repeat constructor.
  - destruct (Z.leb_spec (key y) (key x)) as [Hle|Hgt].
    + constructor; [by constructor|].
      constructor; [exact Hle|].
      eapply Forall_impl; [exact Hy|]. unfold decreasing. intros; lia.
    + constructor; [exact IH|].
      rewrite insert_reverse_perm. constructor; [unfold decreasing; lia|exact Hy].
Qed.

Lemma sorted_reverse_sorted (l : list A) :
  StronglySorted (decreasing key) (sorted_reverse key l).
Proof.
  induction l as [|x l IH]; simpl; [constructor|].
  by apply insert_reverse_sorted.
Qed.

(** Stability: the elements of one key come out in the order they went in. *)
Lemma insert_reverse_stable (c : Z) (x : A) (l : list A) :
  StronglySorted (decreasing key) l →
  List.filter (λ a, key a =? c) (insert_reverse key x l)
  = List.filter (λ a, key a =? c) (x :: l).
Proof.
  induction 1 as [|y l Hl IH Hy]; [reflexivity|].
  cbn [insert_reverse].
  destruct (Z.leb_spec (key y) (key x)) as [Hle|Hgt]; [reflexivity|].
  cbn [List.filter] in *. rewrite IH.
  destruct (Z.eqb_spec (key x) c), (Z.eqb_spec (key y) c); try reflexivity.
  lia.
Qed.

Lemma sorted_reverse_stable (c : Z) (l : list A) :
  List.filter (λ a, key a =? c) (sorted_reverse key l)
  = List.filter (λ a, key a =? c) l.
Proof.
  induction l as [|x l IH]; [reflexivity|].
  cbn [sorted_reverse foldr].
  rewrite insert_reverse_stable by apply sorted_reverse_sorted.
  cbn [List.filter]. fold (sorted_reverse key l). by rewrite IH.
Qed.

End Lists.

(** ** The report generator *)

Section Report.
Import Py Reporter.

Variables (cfg : config) (now : Z).

Implicit Types (data : list item) (it : item).

(** [round_half_even] gives an integer that is within half a unit of the
    quotient, and the even one when the quotient lies half way. *)
Lemma round_half_even_near (num den : Z) :
  0 < den →
  2 * Z.abs (round_half_even num den * den - num) ≤ den
  ∧ (2 * Z.abs (round_half_even num den * den - num) = den
     → Z.even (round_half_even num den) = true).
Proof.
  intros Hden. unfold round_half_even.
  pose proof (Z.div_mod num den ltac:(lia)) as Hnum.
  pose proof (Z.mod_pos_bound num den Hden) as Hrem.
  set (q := num / den) in *. set (r := num mod den) in *.
  assert ((q + 1) * den = den * q + den) as Hnext by ring.
  assert (q * den = den * q) as Hthis by ring.
  destruct (Z.compare_spec (2 * r) den) as [Hhalf|Hbelow|Habove].
  - destruct (Z.even q) eqn:Heven.
    + rewrite Hthis. split; [lia|done].
    + rewrite Hnext. split; [lia|]. intros _.
      rewrite Z.even_add, Heven. reflexivity.
  - rewrite Hthis. split; lia.
  - rewrite Hnext. split; lia.
Qed.

(** An integer within half a unit of a quotient is as near to it as any
    other integer. *)
Lemma near_is_nearest (num den k j : Z) :
  0 < den →
  2 * Z.abs (k * den - num) ≤ den →
  Z.abs (k * den - num) ≤ Z.abs (j * den - num)
  ∧ (j ≠ k → Z.abs (j * den - num) = Z.abs (k * den - num)
     → 2 * Z.abs (k * den - num) = den).
Proof.
  intros Hden Hnear.
  destruct (Z.lt_trichotomy j k) as [Hlt|[->|Hgt]].
  - assert (j * den ≤ k * den - den) by nia. split; lia.
  - split; [lia|done].
  - assert (k * den + den ≤ j * den) by nia. split; lia.
Qed.

(** [round(x, 2)] rounds to two decimals. *)
Lemma round2_float_rounds (x : float) :
  Spec.rounded_to_2_decimals x (round2_float x).
Proof.
  unfold Spec.rounded_to_2_decimals, round2_float.
  destruct (Prim2SF x) as [| | |negative m e]; try reflexivity.
  eexists. split; [|reflexivity].
  unfold Spec.nearest_hundredths. cbv zeta.
  destruct (Z.leb_spec 0 e) as [Hpos|Hneg].
  - rewrite (Z.max_l e 0), (Z.max_r (- e) 0) by lia. change (2 ^ 0) with 1.
    replace (100 * Z.pos m * 2 ^ e) with (Z.pos m * 100 * 2 ^ e) by ring.
    generalize (Z.pos m * 100 * 2 ^ e). intros n.
    split; intros j; lia.
  - rewrite (Z.max_r e 0), (Z.max_l (- e) 0) by lia. change (2 ^ 0) with 1.
    rewrite Z.mul_1_r, (Z.mul_comm 100).
    assert (0 < 2 ^ (- e)) as Hden by (apply Z.pow_pos_nonneg; lia).
    destruct (round_half_even_near (Z.pos m * 100) (2 ^ (- e)) Hden) as [Hnear Heven].
    split; intros j.
    + by apply near_is_nearest.
    + intros Hj Hsame. apply Heven.
      by apply (near_is_nearest _ _ _ j Hden Hnear).
Qed.

(** The number of hundredths nearest to a value is the only one. *)
Lemma nearest_hundredths_unique (m : positive) (e k k' : Z) :
  Spec.nearest_hundredths m e k → Spec.nearest_hundredths m e k' → k = k'.
Proof.
  unfold Spec.nearest_hundredths. cbv zeta.
  set (num := 100 * Z.pos m * 2 ^ Z.max e 0).
  set (den := 2 ^ Z.max (- e) 0).
  assert (0 < den) as Hden by (apply Z.pow_pos_nonneg; lia).
  intros [Hk Hk_even] [Hk' Hk'_even].
  destruct (decide (k = k')) as [|Hne]; [done|exfalso].
  assert (Z.abs (k' * den - num) = Z.abs (k * den - num)) as Hsame.
  { specialize (Hk k'). specialize (Hk' k). lia. }
  specialize (Hk_even k' ltac:(congruence) Hsame).
  specialize (Hk'_even k ltac:(congruence) ltac:(congruence)).
  assert (k' = k + 1 ∨ k' = k - 1) as Hstep.
  { destruct (Z.lt_trichotomy (k + 1) k') as [Hlt|[Heq|Hgt]]; [|left; lia|].
    - specialize (Hk (k + 1)). specialize (Hk' (k + 1)).
      assert ((k + 1) * den = k * den + den) by ring.
      assert (k * den + 2 * den ≤ k' * den) by nia. lia.
    - destruct (Z.lt_trichotomy (k' + 1) k) as [Hlt'|[Heq'|Hgt']];
        [|right; lia|lia].
      specialize (Hk (k - 1)). specialize (Hk' (k - 1)).
      assert ((k - 1) * den = k * den - den) by ring.
      assert (k' * den + 2 * den ≤ k * den) by nia. lia. }
  destruct Hstep as [-> | ->].
  - rewrite Z.even_add, Hk_even in Hk'_even. discriminate.
  - rewrite Z.even_sub, Hk_even in Hk'_even. discriminate.
Qed.

(** [generate_report] raises on no input, and its report holds what the
    source computes for each field. *)
Lemma generate_report_ok (data : list item) (start_time end_time : Z) :
  ∃ r, generate_report cfg now data start_time end_time = Ok r
    ∧ total_files_processed (report_summary r) = Z.of_nat (length data)
    ∧ successful_files (report_summary r)
      = Z.of_nat (length (List.filter (status_is "COMPLETED") data))
    ∧ success_rate_percent (report_summary r)
      = (if Z.of_nat (length data) =? 0 then PyInt 0
         else PyFloat
                (round2_float
                   (Spec.percentage
                      (Z.of_nat (length (List.filter (status_is "COMPLETED") data)))
                      (Z.of_nat (length data)))))
    ∧ total_records_processed (report_summary r)
      = sum ((λ it, default 0 (recordCount it))
               <$> List.filter (λ it, truthy_int (recordCount it)) data)
    ∧ hourly_breakdown r = fold_left (hourly_step cfg) data []
    ∧ errors r = take 10 (fold_left (errors_step cfg) data [])
    ∧ top_files r
      = take 10
          (sorted_reverse top_recordCount
             (Spec.top_entry <$> List.filter (λ it, truthy_int (recordCount it)) data)).
Proof.
  unfold generate_report, truediv.
  change (1024 * 1024 =? 0) with false. cbv iota.
  rewrite !sum_ones.
  destruct (Z.ltb_spec 0 (Z.of_nat (length data))) as [Hpos|Hzero].
  - destruct (Z.eqb_spec (Z.of_nat (length data)) 0) as [?|_]; [lia|].
    eexists. split; [reflexivity|]. cbn.
    repeat split; reflexivity.
  - eexists. split; [reflexivity|]. cbn.
    destruct (Z.eqb_spec (Z.of_nat (length data)) 0) as [_|?]; [|lia].
    repeat split; reflexivity.
Qed.

Lemma errors_condition (it : item) :
  status_is "FAILED" it && truthy_str (errorMessage it) = Spec.failed_with_detail it.
Proof.
  unfold status_is, Spec.failed_with_detail, truthy_str.
  destruct (processingStatus it) as [st|], (errorMessage it) as [m|];
    try (by case_bool_decide).
  - case_bool_decide as H.
    + injection H as ->. reflexivity.
    + destruct (String.eqb_spec st "FAILED") as [->|_]; [done|reflexivity].
Qed.

Lemma errors_loop (data : list item) (acc : list error_entry) :
  fold_left (errors_step cfg) data acc
  = acc ++ (Spec.failure_entry cfg <$> List.filter Spec.failed_with_detail data).
Proof.
  revert acc. induction data as [|it data IH]; intros acc.
  - simpl. by rewrite app_nil_r.
  - cbn [fold_left List.filter]. rewrite IH. unfold errors_step.
    rewrite errors_condition.
    destruct (Spec.failed_with_detail it) eqn:Hit; [|reflexivity].
    rewrite fmap_cons, <- app_assoc. do 2 f_equal.
    unfold Spec.failed_with_detail in Hit. unfold Spec.failure_entry.
    destruct (processingStatus it), (errorMessage it); try discriminate.
    reflexivity.
Qed.

(** C8. The error list of a report holds one entry (name, message,
    timestamp) for each FAILED record with a non-empty error detail, in the
    order of the scan, cut after the first ten. *)
Theorem errors_first_ten_in_scan_order (data : list item) (start_time end_time : Z) :
  ∃ r, generate_report cfg now data start_time end_time = Ok r
    ∧ errors r
      = take 10 (Spec.failure_entry cfg <$> List.filter Spec.failed_with_detail data)
    ∧ (length (errors r) ≤ 10)%nat.
Proof.
  destruct (generate_report_ok data start_time end_time)
    as (r & Hr & _ & _ & _ & _ & _ & Herr & _).
  exists r. split; [exact Hr|].
  rewrite Herr, errors_loop, app_nil_l.
  split; [reflexivity|]. rewrite length_take. lia.
Qed.

(** C5, as the code has it. The top-files list is the first ten of the
    records that have a non-zero recordCount, ranked by recordCount
    descending with ties in scan order; a record whose recordCount is
    absent or zero is not listed. *)
Theorem top_files_ranks_nonzero_counts (data : list item) (start_time end_time : Z) :
  ∃ r ranked,
    let candidates :=
      Spec.top_entry <$> List.filter (λ it, truthy_int (recordCount it)) data in
    generate_report cfg now data start_time end_time = Ok r
    ∧ ranked ≡ₚ candidates
    ∧ StronglySorted (decreasing top_recordCount) ranked
    ∧ (∀ c, List.filter (λ f, top_recordCount f =? c) ranked
            = List.filter (λ f, top_recordCount f =? c) candidates)
    ∧ top_files r = take 10 ranked
    ∧ (length (top_files r) ≤ 10)%nat
    ∧ Forall (λ f, top_recordCount f ≠ 0) (top_files r).
Proof.
  destruct (generate_report_ok data start_time end_time)
    as (r & Hr & _ & _ & _ & _ & _ & _ & Htop).
  exists r. eexists. cbv zeta.
  split; [exact Hr|].
  split; [apply sorted_reverse_perm|].
  split; [apply sorted_reverse_sorted|].
  split; [intros c; apply sorted_reverse_stable|].
  split; [exact Htop|].
  split; [rewrite Htop, length_take; lia|].
  rewrite Htop. apply Forall_take.
  rewrite sorted_reverse_perm. apply Forall_fmap, Forall_forall.
  intros it Hit. apply list_elem_of_In, filter_In in Hit as [_ Hit].
  unfold truthy_int in Hit. simpl.
  destruct (recordCount it) as [n|]; [|discriminate]. simpl.
  destruct (Z.eqb_spec n 0); [discriminate|assumption].
Qed.

(** The total-records figure is the sum of recordCount over every record
    that has the field: line 109 does not look at the status. *)
Lemma total_records_every_count (data : list item) (start_time end_time : Z) :
  ∃ r, generate_report cfg now data start_time end_time = Ok r
    ∧ total_records_processed (report_summary r)
      = foldr Z.add 0
          ((λ it, default 0 (recordCount it))
             <$> List.filter (λ it, bool_decide (is_Some (recordCount it))) data).
Proof.
  destruct (generate_report_ok data start_time end_time)
    as (r & Hr & _ & _ & _ & Htot & _).
  exists r. split; [exact Hr|]. rewrite Htot, sum_foldr. clear.
  induction data as [|it data IH]; [reflexivity|].
  cbn [List.filter]. unfold truthy_int at 1.
  destruct (recordCount it) as [n|] eqn:Hn.
  - rewrite bool_decide_eq_true_2 by eauto.
    destruct (Z.eqb_spec n 0) as [->|_]; cbn [negb];
      rewrite ?fmap_cons; cbn [foldr]; rewrite ?Hn, IH; cbn [default from_option]; unfold id; lia.
  - rewrite bool_decide_eq_false_2 by (intros [? ?]; discriminate). exact IH.
Qed.

(** Where only COMPLETED records carry a recordCount, the records that
    carry one are the COMPLETED records that carry one. *)
Lemma counted_are_completed (data : list item) :
  Forall (λ it, is_Some (recordCount it) → processingStatus it = Some "COMPLETED")
    data →
  List.filter (λ it, bool_decide (is_Some (recordCount it))) data
  = List.filter
      (λ it, status_is "COMPLETED" it && bool_decide (is_Some (recordCount it)))
      data.
Proof.
  induction 1 as [|it data Hit _ IH]; [reflexivity|].
  cbn [List.filter]. rewrite IH. unfold status_is.
  destruct (recordCount it) as [n|].
  - rewrite (bool_decide_eq_true_2 (processingStatus it = _)) by eauto. reflexivity.
  - rewrite (bool_decide_eq_false_2 (is_Some _)) by (intros [? ?]; discriminate).
    by rewrite andb_false_r.
Qed.

(** C2. In a window of records as the ingestion worker writes them, with a
    recordCount on COMPLETED records only (line 193 of the worker: the
    COMPLETED write alone passes a record count, and every write replaces
    the item), the total-records figure of the report is the sum of
    recordCount over the COMPLETED records that have the field. The records
    of any other status contribute nothing: the figure is that of the
    report on the COMPLETED records alone. *)
Theorem total_records_sums_completed_counts (data : list item)
    (start_time end_time : Z) :
  Forall (λ it, is_Some (recordCount it) → processingStatus it = Some "COMPLETED")
    data →
  ∃ r r',
    generate_report cfg now data start_time end_time = Ok r
    ∧ total_records_processed (report_summary r) = Spec.total_records data
    ∧ generate_report cfg now (List.filter (status_is "COMPLETED") data)
        start_time end_time = Ok r'
    ∧ total_records_processed (report_summary r)
      = total_records_processed (report_summary r').
Proof.
  intros Hcounts.
  destruct (total_records_every_count data start_time end_time)
    as (r & Hr & Htot).
  destruct (total_records_every_count (List.filter (status_is "COMPLETED") data)
              start_time end_time) as (r' & Hr' & Htot').
  exists r, r'. split; [exact Hr|].
  rewrite Htot, Htot'. unfold Spec.total_records.
  rewrite (counted_are_completed data Hcounts).
  split; [reflexivity|]. split; [exact Hr'|].
  do 2 f_equal. clear.
  induction data as [|it data IH]; [reflexivity|].
  cbn [List.filter].
  destruct (status_is "COMPLETED" it); cbn [andb List.filter]; by rewrite IH.
Qed.

(** C6. The success rate of a report is completed/total×100 rounded to two
    decimals when the window has records: it is the float of a number of
    hundredths, and no number of hundredths is nearer to the quotient (of
    two that are equally near, the even one is taken). It is 0, with no
    error, when the window has no records. Three COMPLETED and two FAILED
    records among five give 60.00; one COMPLETED record among three gives
    33.33 and two give 66.67. *)
Theorem success_rate_rounded (data : list item) (start_time end_time : Z) :
  let completed := Z.of_nat (length (List.filter (status_is "COMPLETED") data)) in
  let total := Z.of_nat (length data) in
  ∃ r, generate_report cfg now data start_time end_time = Ok r
    ∧ (data = [] → success_rate_percent (report_summary r) = PyInt 0)
    ∧ (data ≠ [] →
       ∃ y, success_rate_percent (report_summary r) = PyFloat y
            ∧ Spec.rounded_to_2_decimals (Spec.percentage completed total) y)
    ∧ (total = 5 → completed = 3
       → length (List.filter (status_is "FAILED") data) = 2%nat
       → success_rate_percent (report_summary r) = PyFloat 60)
    ∧ (total = 3 → completed = 1
       → success_rate_percent (report_summary r) = PyFloat 33.33)
    ∧ (total = 3 → completed = 2
       → success_rate_percent (report_summary r) = PyFloat 66.67).
Proof.
  cbv zeta.
  destruct (generate_report_ok data start_time end_time)
    as (r & Hr & _ & _ & Hrate & _).
  exists r. split; [exact Hr|]. rewrite Hrate. clear Hrate Hr.
  split; [by intros ->|]. split; [|split; [|split]].
  - intros Hdata.
    destruct (Z.eqb_spec (Z.of_nat (length data)) 0) as [Hzero|_].
    { destruct data; [done|simpl in Hzero; lia]. }
    eexists. split; [reflexivity|]. apply round2_float_rounds.
  - intros -> -> _. reflexivity.
  - intros -> ->. reflexivity.
  - intros -> ->. reflexivity.
Qed.

(** C9. Two runs on the same records and the same window give the same
    summary, hourly breakdown, error list and top-files list, whatever the
    clock reads when each report is stamped. *)
Theorem report_independent_of_clock (data : list item)
    (start_time end_time later : Z) :
  ∃ r1 r2,
    generate_report cfg now data start_time end_time = Ok r1
    ∧ generate_report cfg later data start_time end_time = Ok r2
    ∧ report_summary r1 = report_summary r2
    ∧ hourly_breakdown r1 = hourly_breakdown r2
    ∧ errors r1 = errors r2
    ∧ top_files r1 = top_files r2
    ∧ report_period_start (metadata r1) = report_period_start (metadata r2)
    ∧ report_period_end (metadata r1) = report_period_end (metadata r2)
    ∧ environment (metadata r1) = environment (metadata r2).
Proof.
  unfold generate_report, truediv.
  change (1024 * 1024 =? 0) with false. cbv iota.
  destruct (Z.ltb_spec 0 (Z.of_nat (length data))) as [Hpos|Hzero].
  - destruct (Z.eqb_spec (Z.of_nat (length data)) 0) as [?|_]; [lia|].
    do 2 eexists. split; [reflexivity|]. split; [reflexivity|].
    cbn [report_summary hourly_breakdown errors top_files metadata
         report_period_start report_period_end environment].
    by repeat (split; [reflexivity|]).
  - do 2 eexists. split; [reflexivity|]. split; [reflexivity|].
    cbn [report_summary hourly_breakdown errors top_files metadata
         report_period_start report_period_end environment].
    by repeat (split; [reflexivity|]).
Qed.

End Report.

(** ** The scan and its continuation keys *)

Section Pagination.
Import Py Reporter.

Variables (table : list (list item)) (keep : item → bool).

(** After the page at [k] has been read, [fuel] further calls suffice when
    they are as many as the pages left; the loop then ends with the
    matching items of every later page appended. *)
Lemma follow_pages_all (fuel : nat) (key : option nat) (items : list item) :
  (length table ≤ fuel + S (default 0%nat key))%nat →
  follow_pages fuel table keep (scan table keep key) items
  = Some (items ++ List.filter keep (concat (drop (S (default 0%nat key)) table))).
Proof.
  revert key items. induction fuel as [|fuel IH]; intros key items Hfuel;
    set (k := default 0%nat key) in *; cbn [follow_pages scan LastEvaluatedKey];
    fold k; destruct (Nat.ltb_spec (S k) (length table)) as [Hmore|Hlast].
  - lia.
  - rewrite drop_ge by lia. by rewrite app_nil_r.
  - rewrite (IH (Some (S k))) by (simpl; lia). cbn [scan Items default from_option id].
    destruct (lookup_lt_is_Some_2 table (S k) Hmore) as [page Hpage].
    rewrite Hpage. cbn [default from_option id].
    rewrite (drop_S _ _ _ Hpage). cbn [concat].
    by rewrite List.filter_app, app_assoc.
  - rewrite drop_ge by lia. by rewrite app_nil_r.
Qed.

End Pagination.

Section Fetch.
Import Py Reporter Examples.

(** C7. The fetch follows the continuation keys to the end and returns
    every record of the window, page after page; with 150 such records on
    two pages the first page holds 100 of them and the report counts
    150. *)
Theorem fetch_follows_continuation (table : list (list item)) (lo hi : Z) :
  fetch_report_data (length table) table lo hi
  = Some (List.filter (between lo hi) (concat table))
  ∧ ∃ data r,
      fetch_report_data 1 two_pages 1700000000 1700086400 = Some data
      ∧ length (Items (scan two_pages (between 1700000000 1700086400) None)) = 100%nat
      ∧ generate_report dev 1700086400 data 1700000000 1700086400 = Ok r
      ∧ total_files_processed (report_summary r) = 150.
Proof.
  split.
  - unfold fetch_report_data.
    rewrite follow_pages_all by (simpl; lia).
    destruct table as [|page rest]; [reflexivity|].
    cbn. by rewrite List.filter_app.
  - destruct (generate_report_ok dev 1700086400
                (List.filter (between 1700000000 1700086400) (concat two_pages))
                1700000000 1700086400) as (r & Hr & Htotal & _).
    eexists. exists r. split; [|split; [|split; [exact Hr|]]].
    + unfold fetch_report_data. rewrite follow_pages_all by (simpl; lia).
      cbn [default from_option id]. reflexivity.
    + reflexivity.
    + rewrite Htotal. reflexivity.
Qed.

End Fetch.

(** ** The report generator on concrete windows *)

Section ReportExamples.
Import Py Reporter Examples.

(** One COMPLETED record among three: the quotient 33.33333333333333 is
    rounded to 33.33. Three among five, and the empty window. *)
Lemma success_rate_rounded_witness :
  one_of_three ≠ []
  ∧ (∃ r y,
       generate_report dev 1700090000 one_of_three 1700000000 1700086400 = Ok r
       ∧ success_rate_percent (report_summary r) = PyFloat y
       ∧ Spec.rounded_to_2_decimals (Spec.percentage 1 3) y
       ∧ y = 33.33%float
       ∧ PrimFloat.ltb y (Spec.percentage 1 3) = true)
  ∧ (∃ r, generate_report dev 1700090000 three_of_five 1700000000 1700086400 = Ok r
        ∧ success_rate_percent (report_summary r) = PyFloat 60)
  ∧ (∃ r, generate_report dev 1700090000 [] 1700000000 1700086400 = Ok r
        ∧ success_rate_percent (report_summary r) = PyInt 0).
Proof.
  assert (one_of_three ≠ []) as Hsome by discriminate.
  split; [exact Hsome|]. split; [|split].
  - destruct (success_rate_rounded dev 1700090000 one_of_three 1700000000 1700086400)
      as (r & Hr & _ & Hrounded & _ & H33 & _).
    destruct (Hrounded Hsome) as (y & Hy & Hnear).
    exists r, y. split; [exact Hr|]. split; [exact Hy|]. split; [exact Hnear|].
    rewrite (H33 eq_refl eq_refl) in Hy. injection Hy as <-.
    split; reflexivity.
  - destruct (success_rate_rounded dev 1700090000 three_of_five 1700000000 1700086400)
      as (r & Hr & _ & _ & H & _).
    exists r. split; [exact Hr|]. apply H; reflexivity.
  - destruct (success_rate_rounded dev 1700090000 [] 1700000000 1700086400)
      as (r & Hr & H & _).
    exists r. split; [exact Hr|]. apply H; reflexivity.
Defined.

(** The window of three COMPLETED records with counts 5, 7 and 5 and two
    FAILED ones without a count: the total is 17. *)
Lemma total_records_sums_completed_counts_witness :
  Forall (λ it : item,
            is_Some (recordCount it) → processingStatus it = Some "COMPLETED")
    three_of_five
  ∧ ∃ r, generate_report dev 1700090000 three_of_five 1700000000 1700086400 = Ok r
      ∧ total_records_processed (report_summary r) = Spec.total_records three_of_five
      ∧ Spec.total_records three_of_five = 17.
Proof.
  assert (Forall (λ it : item,
                    is_Some (recordCount it) → processingStatus it = Some "COMPLETED")
            three_of_five) as Hcounts
    by (repeat constructor; simpl; intros [? ?]; discriminate).
  split; [exact Hcounts|].
  destruct (total_records_sums_completed_counts dev 1700090000 three_of_five
              1700000000 1700086400 Hcounts) as (r & _ & Hr & Htotal & _).
  exists r. split; [exact Hr|]. split; [exact Htotal|reflexivity].
Defined.

(** C5, as stated, fails: a COMPLETED record of an input without data rows
    has the recordCount field, with value 0, and is not listed. *)
Lemma top_files_omits_zero_count :
  ∃ r, generate_report dev 1700090000
         [record "empty.csv" "COMPLETED" 1700000100 (Some 0) None]
         1700000000 1700086400 = Ok r
    ∧ top_files r = []
    ∧ Spec.top_files [record "empty.csv" "COMPLETED" 1700000100 (Some 0) None]
      = [{| top_fileName := Some "empty.csv"; top_recordCount := 0 |}].
Proof. eexists. split; [reflexivity|]. split; reflexivity. Qed.

End ReportExamples.

(** ** The ingestion worker: failures stay inside their event *)

Section Isolation.
Import Py Json Processor Batch.

Variable E : env.

Implicit Types (w : world) (f : frame) (event : list sqs_record).

(** Two frames that differ in how their counters are written. *)
Local Ltac same_frame :=
  unfold incr_successful, incr_failed, modify;
  cbn; do 2 f_equal; lia.

Lemma on_error_ok (locals : option (string * json * json)) (e : string) w :
  ∃ w', on_error E locals e w = (Ok false, w').
Proof.
  unfold on_error, try_except, mbind, M_bind, mret, M_ret.
  destruct locals as [[[file_id object_key] file_size]|].
  - destruct (update_metadata E _ _ _ _ _ _ _ w) as [[[]|msg] w']; eauto.
  - unfold mthrow, M_throw. eauto.
Qed.

(** [process_s3_event] returns [True] or [False] on every descriptor,
    in every environment. *)
Lemma process_s3_event_ok (s3_record : json) w :
  ∃ b w', process_s3_event E s3_record w = (Ok b, w').
Proof.
  unfold process_s3_event, try_except at 1.
  unfold mbind at 1, M_bind at 1, lift.
  destruct (event_details s3_record) as [[[bucket_name object_key] file_size]|msg].
  - unfold mbind at 1, M_bind at 1, new_uuid, try_except.
    match goal with
    | |- context [?m (bump w)] => destruct (m (bump w)) as [[b|msg] w1]
    end.
    + eauto.
    + destruct (on_error_ok (Some (uuid4 E (tick w), object_key, file_size)) msg w1)
        as [w' ->]. eauto.
  - destruct (on_error_ok None msg w) as [w' ->]. eauto.
Qed.

Lemma outcomes_app (events events' : list json) w :
  outcomes E (events ++ events') w
  = ((outcomes E events w).1 ++ (outcomes E events' (outcomes E events w).2).1,
     (outcomes E events' (outcomes E events w).2).2).
Proof.
  revert w. induction events as [|ev events IH]; intros w; simpl.
  - by destruct (outcomes E events' w).
  - destruct (process_s3_event E ev w) as [r w1]. rewrite IH.
    destruct (outcomes E events w1) as [bs w2]. simpl.
    by destruct (outcomes E events' w2).
Qed.

(** The inner loop of [handler] gives every event of the envelope its
    outcome. *)
Lemma events_loop (events : list json) f :
  for_each events (λ s3_record,
    result ← in_stores (process_s3_event E s3_record);
    if result : bool then incr_successful else incr_failed) f
  = (Ok tt,
     {| successful :=
          successful f
          + Z.of_nat (length (List.filter id (outcomes E events (stores f)).1));
        failed :=
          failed f
          + Z.of_nat (length (List.filter negb (outcomes E events (stores f)).1));
        stores := (outcomes E events (stores f)).2 |}).
Proof.
  revert f. induction events as [|ev events IH]; intros [a b w].
  - cbn. by rewrite !Z.add_0_r.
  - cbn [for_each outcomes stores successful failed].
    unfold mbind at 1, M_bind at 1. unfold mbind at 1, M_bind at 1, in_stores.
    cbn [stores successful failed].
    destruct (process_s3_event_ok ev w) as (r & w1 & ->).
    destruct r; cbn [incr_successful incr_failed modify successful failed stores];
      rewrite IH; cbn [stores successful failed];
      destruct (outcomes E events w1) as [bs w2]; cbn; do 2 f_equal; lia.
Qed.

Lemma handle_record_outcomes (record : sqs_record) f :
  handle_record E record f
  = (Ok tt,
     {| successful :=
          successful f
          + Z.of_nat (length (List.filter id
                                (outcomes E (events_of record) (stores f)).1));
        failed :=
          failed f
          + Z.of_nat (length (List.filter negb
                                (outcomes E (events_of record) (stores f)).1))
          + (if rejected record then 1 else 0);
        stores := (outcomes E (events_of record) (stores f)).2 |}).
Proof.
  destruct f as [a b w], record as [message].
  unfold handle_record, events_of, rejected, embedded_events, try_except.
  cbn [body]. unfold mbind at 1, M_bind at 1, lift.
  destruct message as [message_body|msg]; cbn [mbind result_bind];
    [|same_frame].
  unfold mbind at 1, M_bind at 1.
  destruct (contains "Records" message_body) as [[|]|msg]; cbn [mbind result_bind];
    [|same_frame..].
  unfold mbind at 1, M_bind at 1.
  destruct (subscript message_body "Records" ≫= iterate) as [events|msg];
    [|same_frame].
  rewrite events_loop. same_frame.
Qed.

Lemma batch_loop event f :
  for_each event (handle_record E) f
  = (Ok tt,
     {| successful :=
          successful f
          + Z.of_nat (length (List.filter id
                                (outcomes E (all_events event) (stores f)).1));
        failed :=
          failed f
          + Z.of_nat (length (List.filter negb
                                (outcomes E (all_events event) (stores f)).1))
          + Z.of_nat (length (List.filter rejected event));
        stores := (outcomes E (all_events event) (stores f)).2 |}).
Proof.
  revert f. induction event as [|record event IH]; intros f.
  - destruct f. cbn. do 2 f_equal; lia.
  - cbn [for_each]. unfold mbind at 1, M_bind at 1.
    rewrite handle_record_outcomes, IH. cbn [stores successful failed].
    unfold all_events. rewrite fmap_cons. cbn [concat]. rewrite outcomes_app.
    cbn [fst snd List.filter]. rewrite !List.filter_app, !length_app.
    destruct (rejected record); cbn [length]; do 2 f_equal; lia.
Qed.

(** The invocation result, from the outcomes of the events. *)
Lemma handler_outcomes event w :
  handler E event w
  = (Ok (tally (outcomes E (all_events event) w).1
           (length (List.filter rejected event))),
     (outcomes E (all_events event) w).2).
Proof.
  unfold handler. rewrite batch_loop. cbn. unfold tally. do 2 f_equal.
Qed.


Lemma outcomes_length (events : list json) w :
  length (outcomes E events w).1 = length events.
Proof.
  revert w. induction events as [|ev events IH]; intros w; [reflexivity|].
  simpl. destruct (process_s3_event E ev w) as [r w1]. specialize (IH w1).
  destruct (outcomes E events w1) as [bs w2]. simpl in *. by rewrite IH.
Qed.

Lemma true_false_split (bs : list bool) :
  (length (List.filter id bs) + length (List.filter negb bs))%nat = length bs.
Proof. induction bs as [|[] bs IH]; simpl; lia. Qed.

(** An envelope that holds no event can be taken out of the batch: the
    invocation result changes by the failure it is counted as, if it is
    rejected, and not at all otherwise. *)
Lemma handler_without_envelope (pre post : list sqs_record)
    (record : sqs_record) w :
  events_of record = [] →
  handler E (pre ++ record :: post) w
  = (if rejected record then one_more_failure else id) (handler E (pre ++ post) w).
Proof.
  intros Hnone. rewrite !handler_outcomes.
  assert (all_events (pre ++ record :: post) = all_events (pre ++ post)) as ->.
  { unfold all_events. rewrite !fmap_app, fmap_cons, !concat_app. cbn [concat].
    by rewrite Hnone. }
  rewrite !List.filter_app. cbn [List.filter].
  destruct (rejected record); [|reflexivity].
  unfold one_more_failure, tally. cbn [statusCode body_successful body_failed].
  rewrite !length_app. cbn [length]. do 3 f_equal. lia.
Qed.

(** C3. Whatever an event raises is caught at that event: [handler]
    returns status 200 on every batch, with every embedded event of every
    envelope processed in turn and counted once, as succeeded or failed,
    and every rejected envelope counted as one failure. *)
Theorem handler_isolates_failures event w :
  (∀ s3_record w0, ∃ b w1, process_s3_event E s3_record w0 = (Ok b, w1))
  ∧ ∃ r, handler E event w = (Ok r, (outcomes E (all_events event) w).2)
      ∧ statusCode r = 200
      ∧ body_successful r
        = Z.of_nat (length (List.filter id (outcomes E (all_events event) w).1))
      ∧ body_failed r
        = Z.of_nat (length (List.filter negb (outcomes E (all_events event) w).1))
          + Z.of_nat (length (List.filter rejected event))
      ∧ body_successful r + body_failed r
        = Z.of_nat (length (all_events event))
          + Z.of_nat (length (List.filter rejected event)).
Proof.
  split; [apply process_s3_event_ok|].
  eexists. split; [apply handler_outcomes|].
  cbn [tally statusCode body_successful body_failed].
  repeat split.
  pose proof (true_false_split (outcomes E (all_events event) w).1) as Hsplit.
  rewrite outcomes_length in Hsplit. lia.
Qed.

(** C10, as the code has it. An envelope whose body parses to a JSON
    object without the key Records is skipped: the batch gives the result
    it gives without that envelope. An envelope is counted as one failure
    when its body does not parse, and also when it parses to a number, a
    boolean or null. *)
Theorem envelope_without_records_is_skipped (pre post : list sqs_record) w :
  (∀ o, dict_get o "Records" = None →
        handler E (pre ++ {| body := Ok (JObj o) |} :: post) w
        = handler E (pre ++ post) w)
  ∧ (∀ msg, handler E (pre ++ {| body := Raise msg |} :: post) w
            = one_more_failure (handler E (pre ++ post) w))
  ∧ (∀ j, scalar j = true →
          handler E (pre ++ {| body := Ok j |} :: post) w
          = one_more_failure (handler E (pre ++ post) w)).
Proof.
  split; [|split].
  - intros o Ho.
    rewrite handler_without_envelope.
    + unfold rejected, embedded_events. cbn. rewrite Ho.
      rewrite bool_decide_eq_false_2 by (intros [? ?]; discriminate). reflexivity.
    + unfold events_of, embedded_events. cbn. rewrite Ho.
      rewrite bool_decide_eq_false_2 by (intros [? ?]; discriminate). reflexivity.
  - intros msg. by rewrite handler_without_envelope.
  - intros j Hj. rewrite handler_without_envelope; by destruct j.
Qed.

End Isolation.

(** ** The ingestion worker: rows of a delimited input *)

Section Dicts.
Import Py.
Context {K V : Type} `{EqDecision K}.

Lemma dict_set_keys (P : K → Prop) (d : list (K * V)) (k : K) (v : V) :
  Forall (λ kv, P kv.1) d → P k → Forall (λ kv, P kv.1) (dict_set d k v).
Proof.
  intros Hd Hk. induction Hd as [|[k' v'] d Hk' Hd IH]; simpl.
  - by repeat constructor.
  - destruct (decide (k = k')); constructor; auto.
Qed.

Lemma dict_set_holds (d : list (K * V)) (k : K) (v : V) :
  In (k, v) (dict_set d k v).
Proof.
  induction d as [|[k' v'] d IH]; simpl; [by left|].
  destruct (decide (k = k')); simpl; auto.
Qed.

Lemma dict_of_keys (P : K → Prop) (pairs : list (K * V)) :
  Forall (λ kv, P kv.1) pairs → Forall (λ kv, P kv.1) (dict_of pairs).
Proof.
  unfold dict_of. intros Hpairs.
  assert (Forall (λ kv : K * V, P kv.1) []) as Hd by constructor.
  revert Hd. generalize (@nil (K * V)).
  induction Hpairs as [|kv pairs Hkv _ IH]; intros d Hd; simpl; [exact Hd|].
  apply IH. by apply dict_set_keys.
Qed.
End Dicts.

Section DictFacts.
Import Py.
Context {K V : Type} `{EqDecision K}.

Implicit Types (d : list (K * V)) (k : K) (v : V).

Lemma dict_get_None d k : dict_get d k = None ↔ k ∉ d.*1.
Proof.
  induction d as [|[k' v'] d IH]; simpl.
  - split; [intros _; apply not_elem_of_nil|done].
  - rewrite not_elem_of_cons, <- IH.
    destruct (decide (k = k')) as [->|Hne]; split; try done.
    + by intros [? _].
    + by intros [_ ?].
Qed.

(** Reading back what was stored. *)
Lemma dict_get_set d k v : dict_get (dict_set d k v) k = Some v.
Proof.
  induction d as [|[k' v'] d IH]; simpl.
  - by rewrite decide_True.
  - destruct (decide (k = k')); simpl; [by rewrite decide_True|].
    by rewrite decide_False.
Qed.

Lemma dict_get_set_ne d k k' v :
  k ≠ k' → dict_get (dict_set d k v) k' = dict_get d k'.
Proof.
  intros Hne. induction d as [|[k0 v0] d IH]; simpl.
  - by rewrite decide_False.
  - destruct (decide (k = k0)) as [->|]; simpl.
    + by rewrite !decide_False.
    + by rewrite IH.
Qed.

(** A new key goes to the end. *)
Lemma dict_set_fresh d k v : k ∉ d.*1 → dict_set d k v = d ++ [(k, v)].
Proof.
  induction d as [|[k' v'] d IH]; simpl; [done|].
  rewrite not_elem_of_cons. intros [Hne Hd].
  by rewrite decide_False, IH.
Qed.

Lemma dict_of_fresh (pairs acc : list (K * V)) :
  NoDup (acc.*1 ++ pairs.*1) →
  fold_left (λ d kv, dict_set d kv.1 kv.2) pairs acc = acc ++ pairs.
Proof.
  revert acc. induction pairs as [|[k v] pairs IH]; intros acc Hnodup; simpl.
  - by rewrite app_nil_r.
  - rewrite dict_set_fresh.
    + rewrite IH; [by rewrite <- app_assoc|].
      rewrite fmap_app, <- app_assoc. exact Hnodup.
    + apply NoDup_app in Hnodup as (_ & Hdisj & _).
      intros Hk. apply (Hdisj k Hk). simpl. left.
Qed.

End DictFacts.

Section Csv.
Import Py Processor Rows.

Variable E : env.

Implicit Types (w : world) (row : list (option string * cell)).

Lemma clean_items_named row (acc : list (string * cell)) :
  Forall (λ kv, is_Some kv.1) row → is_ok (clean_items row acc) = true.
Proof.
  intros Hrow. revert acc.
  induction Hrow as [|[[k|] v] row Hk _ IH]; intros acc; simpl; auto.
  by destruct Hk.
Qed.

Lemma clean_items_rest row (acc : list (string * cell)) (v : cell) :
  In (None, v) row → is_ok (clean_items row acc) = false.
Proof.
  revert acc. induction row as [|[[k|] v'] row IH]; intros acc Hin; simpl.
  - destruct Hin.
  - destruct Hin as [?|Hin]; [discriminate|]. by apply IH.
  - reflexivity.
Qed.

(** The transform raises on exactly the rows that have more fields than
    the header. *)
Lemma clean_dict_row (header r : list string) :
  is_ok (clean_items (dict_row header r) []) = negb (Spec.overlong header r).
Proof.
  unfold dict_row, Spec.overlong.
  assert (Forall (λ kv : option string * cell, is_Some kv.1)
            (dict_of (zip (Some <$> header) (CStr <$> r)))) as Hzip.
  { apply dict_of_keys. apply Forall_forall. intros [k v] Hin.
    apply elem_of_zip_l in Hin. apply list_elem_of_fmap in Hin as (? & -> & _).
    simpl. eauto. }
  destruct (length header <? length r)%nat; simpl.
  - eapply clean_items_rest, dict_set_holds.
  - apply clean_items_named.
    revert Hzip. generalize (dict_of (zip (Some <$> header) (CStr <$> r))).
    induction (drop (length r) header) as [|key keys IH]; intros d Hd; simpl;
      [exact Hd|].
    apply IH. apply dict_set_keys; simpl; eauto.
Qed.

Lemma process_row_counts (sm : csv_summary) (recs : list (list (string * cell)))
    row w :
  ∃ sm' recs' w',
    process_row E (sm, recs) row w = (Ok (sm', recs'), w')
    ∧ total_records sm' = total_records sm + 1
    ∧ if is_ok (clean_items row [])
      then valid_records sm' = valid_records sm + 1
           ∧ invalid_records sm' = invalid_records sm
           ∧ length recs' = S (length recs)
      else valid_records sm' = valid_records sm
           ∧ invalid_records sm' = invalid_records sm + 1
           ∧ length recs' = length recs.
Proof.
  unfold process_row, try_except. unfold mbind at 1, M_bind at 1, lift.
  destruct (clean_items row []) as [cleaned|msg]; cbn.
  - do 3 eexists. split; [reflexivity|]. cbn.
    rewrite length_app. cbn. repeat split; lia.
  - do 3 eexists. split; [reflexivity|]. cbn. repeat split; lia.
Qed.

Lemma process_rows_counts (rows : list (list (option string * cell)))
    (sm : csv_summary) (recs : list (list (string * cell))) w :
  ∃ sm' recs' w',
    process_rows E rows (sm, recs) w = (Ok (sm', recs'), w')
    ∧ total_records sm' = total_records sm + Z.of_nat (length rows)
    ∧ invalid_records sm'
      = invalid_records sm
        + Z.of_nat (length (List.filter (λ row, negb (is_ok (clean_items row []))) rows))
    ∧ valid_records sm' + invalid_records sm'
      = valid_records sm + invalid_records sm + Z.of_nat (length rows)
    ∧ Z.of_nat (length recs') - valid_records sm'
      = Z.of_nat (length recs) - valid_records sm.
Proof.
  revert sm recs w. induction rows as [|row rows IH]; intros sm recs w.
  - do 3 eexists. split; [reflexivity|]. cbn. repeat split; lia.
  - cbn [process_rows]. unfold mbind at 1, M_bind at 1.
    destruct (process_row_counts sm recs row w) as (sm1 & recs1 & w1 & -> & Ht & Hrow).
    destruct (IH sm1 recs1 w1) as (sm' & recs' & w' & -> & Ht' & Hi' & Hs' & Hl').
    exists sm', recs', w'. split; [reflexivity|].
    cbn [List.filter length].
    destruct (is_ok (clean_items row [])); cbn [negb length];
      destruct Hrow as (Hv & Hi & Hl); repeat split; lia.
Qed.

Lemma overlong_not_blank (header : list string) (rows : list (list string)) :
  List.filter (λ row, negb (is_ok (clean_items row [])))
    (dict_row header <$> filter (λ r, r ≠ []) rows)
  = dict_row header <$> List.filter (Spec.overlong header) rows.
Proof.
  induction rows as [|r rows IH]; [reflexivity|].
  rewrite filter_cons. cbn [List.filter].
  destruct (decide (r ≠ [])) as [Hr|Hr].
  - rewrite fmap_cons. cbn [List.filter]. rewrite clean_dict_row, negb_involutive.
    destruct (Spec.overlong header r); by rewrite IH.
  - apply dec_stable in Hr as ->. unfold Spec.overlong at 2. cbn [length].
    destruct (Nat.ltb_spec (length header) 0); [lia|]. exact IH.
Qed.

Lemma zip_replicate_r {A B} (l : list A) (b : B) :
  zip l (replicate (length l) b) = (λ a, (a, b)) <$> l.
Proof. induction l as [|a l IH]; simpl; by rewrite ?IH. Qed.

(** The row of a header [h1 ++ h2] that has as many fields as [h1]. *)
Lemma filled_split (h1 h2 r : list string) :
  length r = length h1 →
  filled (h1 ++ h2) r = zip h1 (CStr <$> r) ++ ((λ key, (key, CNone)) <$> h2).
Proof.
  intros Hlen. unfold filled. rewrite length_app, Hlen.
  replace (length h1 + length h2 - length h1)%nat with (length h2) by lia.
  rewrite zip_with_app by (by rewrite length_fmap).
  by rewrite zip_replicate_r.
Qed.

(** Setting a key in a dict whose keys are all names. *)
Lemma dict_set_named (d : list (string * cell)) (k : string) (v : cell) :
  dict_set ((λ kv, (Some kv.1, kv.2)) <$> d) (Some k) v
  = (λ kv, (Some kv.1, kv.2)) <$> dict_set d k v.
Proof.
  induction d as [|[k' v'] d IH]; [reflexivity|].
  cbn [fmap list_fmap dict_set fst snd].
  destruct (decide (k = k')) as [->|Hne].
  - by rewrite decide_True.
  - rewrite decide_False by congruence. cbn [fmap list_fmap fst snd].
    f_equal. exact IH.
Qed.

Lemma dict_of_named (pairs acc : list (string * cell)) :
  fold_left (λ d kv, dict_set d kv.1 kv.2) ((λ kv, (Some kv.1, kv.2)) <$> pairs)
    ((λ kv, (Some kv.1, kv.2)) <$> acc)
  = (λ kv, (Some kv.1, kv.2))
      <$> fold_left (λ d kv, dict_set d kv.1 kv.2) pairs acc.
Proof.
  revert acc. induction pairs as [|[k v] pairs IH]; intros acc; [reflexivity|].
  cbn [fmap list_fmap fold_left fst snd]. by rewrite dict_set_named, IH.
Qed.

Lemma fill_named (keys : list string) (d : list (string * cell)) :
  fold_left (λ d key, dict_set d (Some key) CNone) keys
    ((λ kv, (Some kv.1, kv.2)) <$> d)
  = (λ kv, (Some kv.1, kv.2))
      <$> fold_left (λ d kv, dict_set d kv.1 kv.2) ((λ key, (key, CNone)) <$> keys) d.
Proof.
  revert d. induction keys as [|key keys IH]; intros d; [reflexivity|].
  cbn [fmap list_fmap fold_left fst snd]. by rewrite dict_set_named, IH.
Qed.

Lemma zip_named (h r : list string) :
  zip (Some <$> h) (CStr <$> r)
  = (λ kv : string * cell, (Some kv.1, kv.2)) <$> zip h (CStr <$> r).
Proof.
  revert r. induction h as [|k h IH]; intros [|x r]; try reflexivity.
  cbn. by rewrite <- IH.
Qed.

Lemma zip_take_l {A B} (l : list A) (k : list B) :
  zip l k = zip (take (length k) l) k.
Proof.
  revert k. induction l as [|a l IH]; intros [|b k]; try reflexivity.
  cbn. by rewrite <- IH.
Qed.

(** [DictReader] on a row that is not longer than the header. *)
Lemma dict_row_read (header r : list string) :
  (length r ≤ length header)%nat →
  dict_row header r = (λ kv, (Some kv.1, kv.2)) <$> read header r.
Proof.
  intros Hshort. unfold dict_row, read.
  destruct (Nat.ltb_spec (length header) (length r)) as [?|_]; [lia|].
  rewrite zip_named, (zip_take_l header), length_fmap.
  rewrite <- (take_drop (length r) header) at 3.
  rewrite filled_split by (rewrite length_take; lia).
  unfold dict_of.
  rewrite (dict_of_named _ []), fill_named, fold_left_app. reflexivity.
Qed.

(** The dict comprehension on a dict whose keys are all names. *)
Lemma clean_items_named_fields (d acc : list (string * cell)) :
  clean_items ((λ kv, (Some kv.1, kv.2)) <$> d) acc
  = Ok (fold_left (λ a kv, dict_set a kv.1 kv.2) (clean_field <$> d) acc).
Proof.
  revert acc. induction d as [|[k v] d IH]; intros acc; [reflexivity|].
  cbn [fmap list_fmap clean_items fold_left fst snd clean_field].
  fold (clean_cell v). apply IH.
Qed.

(** The transform of a row that is not longer than the header. *)
Lemma clean_items_cleaned (header r : list string) :
  (length r ≤ length header)%nat →
  clean_items (dict_row header r) [] = Ok (cleaned header r).
Proof.
  intros Hshort. by rewrite dict_row_read, clean_items_named_fields.
Qed.

(** One round of the loop of [process_csv_data]. *)
Lemma process_row_record (header r : list string) (sm : csv_summary)
    (recs : list (list (string * cell))) w :
  process_row E (sm, recs) (dict_row header r) w
  = if Spec.overlong header r
    then (Ok ({| total_records := total_records sm + 1;
                 valid_records := valid_records sm;
                 invalid_records := invalid_records sm + 1 |}, recs), w)
    else (Ok ({| total_records := total_records sm + 1;
                 valid_records := valid_records sm + 1;
                 invalid_records := invalid_records sm |},
              recs ++ [record_of header r
                         (isoformat (utcfromtimestamp (utcnow E (tick w))))
                         (uuid4 E (S (tick w)))]),
          bump (bump w)).
Proof.
  pose proof (clean_dict_row header r) as Hok.
  unfold process_row, try_except. unfold mbind at 1, M_bind at 1, lift.
  unfold Spec.overlong in *.
  destruct (Nat.ltb_spec (length header) (length r)) as [Hlong|Hshort].
  - destruct (clean_items (dict_row header r) []); [discriminate|reflexivity].
  - rewrite clean_items_cleaned by done. reflexivity.
Qed.

(** The loop of [process_csv_data]: it appends one record for each row
    that is not longer than the header, in the order of the rows. *)
Lemma process_rows_records (header : list string) (rows : list (list string))
    (sm : csv_summary) (recs : list (list (string * cell))) w :
  ∃ sm' recs' w',
    process_rows E (dict_row header <$> rows) (sm, recs) w
    = (Ok (sm', recs ++ recs'), w')
    ∧ Forall2 (λ rec r, ∃ processed_at n,
                 rec = record_of header r processed_at (uuid4 E n))
        recs' (List.filter (λ r, negb (Spec.overlong header r)) rows).
Proof.
  revert sm recs w. induction rows as [|r rows IH]; intros sm recs w.
  - exists sm, [], w. rewrite app_nil_r. split; [reflexivity|constructor].
  - cbn [fmap list_fmap process_rows List.filter].
    unfold mbind at 1, M_bind at 1. rewrite process_row_record.
    destruct (Spec.overlong header r); cbn [negb].
    + apply IH.
    + edestruct IH as (sm' & recs' & w' & Hrun & Hrecs).
      rewrite Hrun. do 3 eexists. rewrite <- app_assoc.
      split; [reflexivity|]. constructor; [eauto|exact Hrecs].
Qed.

(** C4, as the code has it. On a delimited input with a header row, the
    invalid-row counter is the number of data rows that have more fields
    than the header: the transform raises on those and on no other row.
    The valid rows are the remaining non-blank ones, and the records of the
    output are these rows, one record for each in their order: the dict of
    the row with names and values trimmed, and the fields processed_at and
    row_id set. When no data row is longer than the header, the invalid
    counter is zero and valid_records equals total_records. *)
Theorem invalid_rows_are_overlong (header : list string)
    (rows : list (list string)) w :
  ∃ data w',
    process_csv_data E (header :: rows) w = (Ok data, w')
    ∧ total_records (summary data)
      = Z.of_nat (length (filter (λ r, r ≠ []) rows))
    ∧ invalid_records (summary data)
      = Z.of_nat (length (List.filter (Spec.overlong header) rows))
    ∧ valid_records (summary data) = Z.of_nat (length (valid_rows header rows))
    ∧ valid_records (summary data) + invalid_records (summary data)
      = total_records (summary data)
    ∧ Forall2 (λ rec r, ∃ processed_at n,
                 rec = record_of header r processed_at (uuid4 E n))
        (records data) (valid_rows header rows)
    ∧ (Forall (λ r, (length r ≤ length header)%nat) rows
       → invalid_records (summary data) = 0
         ∧ valid_records (summary data) = total_records (summary data)).
Proof.
  unfold process_csv_data. cbn [DictReader].
  unfold mbind at 1, M_bind at 1.
  destruct (process_rows_counts (dict_row header <$> filter (λ r, r ≠ []) rows)
              {| total_records := 0; valid_records := 0; invalid_records := 0 |} [] w)
    as (sm & recs & w1 & Hrun & Ht & Hi & Hs & Hl).
  destruct (process_rows_records header (filter (λ r, r ≠ []) rows)
              {| total_records := 0; valid_records := 0; invalid_records := 0 |} [] w)
    as (sm' & recs' & w1' & Hrun' & Hrecs).
  rewrite Hrun in Hrun'. injection Hrun' as <- -> <-. rewrite Hrun.
  cbn in Ht, Hi, Hs, Hl. rewrite overlong_not_blank in Hi.
  rewrite length_fmap in Ht, Hi, Hs.
  pose proof (Forall2_length _ _ _ Hrecs) as Hvalid. fold (valid_rows header rows) in *.
  do 2 eexists. split; [reflexivity|]. cbn [summary records].
  split; [lia|]. split; [lia|]. split; [lia|]. split; [lia|].
  split; [exact Hrecs|].
  intros Hshort.
  assert (List.filter (Spec.overlong header) rows = []) as Hnone.
  { clear -Hshort. induction Hshort as [|r rows Hr _ IH]; [reflexivity|].
    cbn [List.filter]. unfold Spec.overlong at 1.
    destruct (Nat.ltb_spec (length header) (length r)); [lia|exact IH]. }
  rewrite Hnone in Hi. cbn in Hi. lia.
Qed.

End Csv.

(** ** The ingestion worker on concrete batches *)

Section WorkerExamples.
Import Py Json Processor Batch Examples.

(** A batch of one envelope with two events: the object of the first is
    not in the bucket, the second is processed all the same. *)
Example unreachable_object_fails_alone :
  (handler calm
     [{| body := Ok (JObj [("Records",
                             JArr [uploaded "uploads" "data/missing.csv" 10;
                                   uploaded "uploads" "data/a.csv" 12])]) |}]
     one_object).1
  = Ok {| statusCode := 200; body_successful := 1; body_failed := 1 |}.
Proof. vm_compute. reflexivity. Qed.

(** C10, as stated, fails: the body [5] is valid JSON and holds no event
    list, and the envelope is counted as a failure. *)
Lemma scalar_body_counts_as_failure :
  body {| body := Ok (JNum 5) |} = Ok (JNum 5)
  ∧ handler calm [{| body := Ok (JNum 5) |}] one_object
    = (Ok {| statusCode := 200; body_successful := 0; body_failed := 1 |},
       one_object).
Proof. split; reflexivity. Qed.

(** The test notification of S3, an object without the key Records,
    after an envelope with one upload. *)
Lemma envelope_without_records_is_skipped_witness :
  dict_get [("Service", JStr "Amazon S3"); ("Event", JStr "s3:TestEvent")] "Records"
  = None
  ∧ handler calm
      ([{| body := Ok (JObj [("Records", JArr [uploaded "uploads" "data/a.csv" 12])]) |}]
       ++ {| body := Ok (JObj [("Service", JStr "Amazon S3");
                                ("Event", JStr "s3:TestEvent")]) |} :: [])
      one_object
    = handler calm
        ([{| body := Ok (JObj [("Records", JArr [uploaded "uploads" "data/a.csv" 12])]) |}]
         ++ [])
        one_object
  ∧ handler calm ([] ++ {| body := Ok JNull |} :: []) one_object
    = one_more_failure (handler calm ([] ++ []) one_object).
Proof.
  split; [reflexivity|]. split.
  - exact (proj1 (envelope_without_records_is_skipped calm
                    [{| body := Ok (JObj [("Records",
                                            JArr [uploaded "uploads" "data/a.csv" 12])]) |}]
                    [] one_object)
             [("Service", JStr "Amazon S3"); ("Event", JStr "s3:TestEvent")]
             eq_refl).
  - exact (proj2 (proj2 (envelope_without_records_is_skipped calm [] [] one_object))
             JNull eq_refl).
Defined.

(** C4, as stated, fails: a data row of three fields under a header of
    two is counted invalid. *)
Lemma overlong_row_is_invalid :
  ∃ data w',
    process_csv_data calm [["a"; "b"]; ["1"; "2"; "3"]] one_object = (Ok data, w')
    ∧ total_records (summary data) = 1
    ∧ valid_records (summary data) = 0
    ∧ invalid_records (summary data) = 1.
Proof. do 2 eexists. split; [vm_compute; reflexivity|]. repeat split. Qed.

(** Two full rows and a short one under a header of two fields: no row is
    invalid, and each row has its record. *)
Lemma invalid_rows_are_overlong_witness :
  Forall (λ r : list string, (length r ≤ length ["a"; "b"])%nat)
    [["1"; "2"]; ["3"]; ["4"; "5"]]
  ∧ ∃ data w',
      process_csv_data calm [["a"; "b"]; ["1"; "2"]; ["3"]; ["4"; "5"]] one_object
      = (Ok data, w')
      ∧ invalid_records (summary data) = 0
      ∧ valid_records (summary data) = total_records (summary data)
      ∧ Forall2 (λ rec r, ∃ processed_at n,
                   rec = Rows.record_of ["a"; "b"] r processed_at (uuid4 calm n))
          (records data) [["1"; "2"]; ["3"]; ["4"; "5"]].
Proof.
  assert (Forall (λ r : list string, (length r ≤ length ["a"; "b"])%nat)
            [["1"; "2"]; ["3"]; ["4"; "5"]]) as Hshort
    by (repeat constructor).
  split; [exact Hshort|].
  destruct (invalid_rows_are_overlong calm ["a"; "b"]
              [["1"; "2"]; ["3"]; ["4"; "5"]] one_object)
    as (data & w' & Hrun & _ & _ & _ & _ & Hrecs & H).
  exists data, w'. split; [exact Hrun|].
  destruct (H Hshort) as [Hinvalid Hvalid].
  split; [exact Hinvalid|]. split; [exact Hvalid|exact Hrecs].
Defined.

(** Every write stamps the item with the time of the write: when the
    table accepts it, the stored uploadTimestamp is the clock reading that
    opens [update_metadata], read as a local time. *)
Lemma update_metadata_stamps_now (E : env) (file_id : string)
    (file_name file_size : json) (status : string)
    (processed_key : option string) (record_count : option Z)
    (error_message : option string) (w : world) :
  fault E (S (S (tick w))) = None →
  uploadTimestamp
    <$> metadata (update_metadata E file_id file_name status file_size
                    processed_key record_count error_message w).2 !! file_id
  = Some (utcnow E (tick w) - utcoffset E).
Proof.
  intros Hfault.
  unfold update_metadata, put_item, service, now, mbind, M_bind.
  cbn [tick bump]. rewrite Hfault. cbn [snd metadata fileId].
  by rewrite lookup_insert_eq.
Qed.

(** C1 on the code. With a clock that advances between the two writes,
    the record that [process_s3_event] creates with the PROCESSING write
    carries one uploadTimestamp, and after the COMPLETED write of the same
    run it carries a later one: [update_metadata] stamps the field with the
    time of each write. *)
Theorem upload_timestamp_restamped :
  let w1 := (new_uuid calm one_object).2 in
  let created :=
    (update_metadata calm "id-0" (JStr "data/a.csv") "PROCESSING" (JNum 12)
       None None None w1).2 in
  let final := (process_s3_event calm (uploaded "uploads" "data/a.csv" 12) one_object).2 in
  (processingStatus <$> metadata created !! "id-0",
   uploadTimestamp <$> metadata created !! "id-0")
  = (Some "PROCESSING", Some 1700000005)
  ∧ (processingStatus <$> metadata final !! "id-0",
     uploadTimestamp <$> metadata final !! "id-0")
    = (Some "COMPLETED", Some 1700000060).
Proof. split; vm_compute; reflexivity. Qed.

End WorkerExamples.

(** ** The stores across a run of the ingestion worker *)

Section Steps.
Import Py Json Processor Stores.

Context {S : Type} (R : S → S → Prop) `{!PreOrder R}.

Lemma steps_ret {A} (a : A) : steps R (mret (M:=M S) a).
Proof. intros w. reflexivity. Qed.

Lemma steps_throw {A} (e : string) : steps R (mthrow (M:=M S) (A:=A) e).
Proof. intros w. reflexivity. Qed.

Lemma steps_lift {A} (r : result A) : steps R (lift (S:=S) r).
Proof. intros w. reflexivity. Qed.

Lemma steps_get : steps R (get (S:=S)).
Proof. intros w. reflexivity. Qed.

Lemma steps_bind {A B} (m : M S A) (k : A → M S B) :
  steps R m → (∀ a, steps R (k a)) → steps R (m ≫= k).
Proof.
  intros Hm Hk w. unfold mbind, M_bind. specialize (Hm w).
  destruct (m w) as [[a|e] w1]; simpl in *; [|exact Hm].
  etrans; [exact Hm|apply Hk].
Qed.

Lemma steps_try {A} (m : M S A) (h : string → M S A) :
  steps R m → (∀ e, steps R (h e)) → steps R (try_except m h).
Proof.
  intros Hm Hh w. unfold try_except. specialize (Hm w).
  destruct (m w) as [[a|e] w1]; simpl in *; [exact Hm|].
  etrans; [exact Hm|apply Hh].
Qed.

Lemma steps_bind_returns {A B} (P : A → Prop) (m : M S A) (k : A → M S B) :
  steps R m → (∀ s a s', m s = (Ok a, s') → P a) →
  (∀ a, P a → steps R (k a)) → steps R (m ≫= k).
Proof.
  intros Hm HP Hk w. unfold mbind, M_bind. specialize (Hm w).
  destruct (m w) as [[a|e] w1] eqn:Hrun; simpl in *; [|exact Hm].
  etrans; [exact Hm|]. eapply Hk, HP, Hrun.
Qed.

End Steps.

(** One statement of a sequence. *)
Ltac step :=
  first [ apply steps_bind; [exact _| |intros]
        | apply steps_try; [exact _| |intros]
        | apply steps_ret; exact _
        | apply steps_throw; exact _
        | apply steps_lift; exact _
        | apply steps_get; exact _ ].

Section WorkerSteps.
Import Py Json Processor Stores.

Variable E : env.
Context (R : world → world → Prop) `{!PreOrder R}.

Hypothesis R_bump : ∀ w, R w (bump w).
Hypothesis R_put_item : ∀ w it,
  written it →
  R w {| tick := tick w; metadata := <[fileId it := it]> (metadata w);
         raw := raw w; processed := processed w |}.
Hypothesis R_put_object : ∀ w key data,
  R w {| tick := tick w; metadata := metadata w; raw := raw w;
         processed := <[key := data]> (processed w) |}.



Lemma steps_now : steps R (now E).
Proof. intros w. apply R_bump. Qed.

Lemma steps_new_uuid : steps R (new_uuid E).
Proof. intros w. apply R_bump. Qed.

Lemma steps_service {A} (call : M world A) :
  steps R call → steps R (service E call).
Proof.
  intros Hcall w. unfold service.
  destruct (fault E (tick w)); [apply R_bump|].
  etrans; [apply R_bump|apply Hcall].
Qed.

Lemma steps_put_item (it : item) : written it → steps R (put_item E it).
Proof. intros Hit. apply steps_service. intros w. by apply R_put_item. Qed.

Lemma steps_put_object (key : string) (data : processed_data) :
  steps R (put_object E key data).
Proof. apply steps_service. intros w. apply R_put_object. Qed.

Lemma steps_get_object (bucket key : json) : steps R (get_object E bucket key).
Proof.
  apply steps_service. intros w.
  destruct bucket, key; try reflexivity.
  destruct (raw w !! _); reflexivity.
Qed.

Local Hint Resolve steps_now steps_new_uuid steps_put_object steps_get_object
  : core.

Lemma steps_process_rows rows acc : steps R (process_rows E rows acc).
Proof.
  revert acc. induction rows as [|row rows IH]; intros [sm recs]; cbn [process_rows].
  - step.
  - step; [|apply IH]. unfold process_row. repeat (step; auto).
Qed.

Lemma steps_process_csv_data csv_content : steps R (process_csv_data E csv_content).
Proof.
  unfold process_csv_data. step; [apply steps_process_rows|].
  destruct a. repeat (step; auto).
Qed.

Lemma steps_generate_output_key input_key : steps R (generate_output_key E input_key).
Proof. destruct input_key; cbn [generate_output_key]; repeat (step; auto). Qed.

Lemma steps_update_metadata file_id file_name status file_size
    processed_key record_count error_message :
  (∀ timestamp updated,
     written {| fileId := file_id; fileName := file_name;
                processingStatus := status; uploadTimestamp := timestamp;
                fileSize := file_size; lastUpdated := updated;
                processedKey :=
                  if truthy_str processed_key then processed_key else None;
                recordCount := record_count;
                errorMessage :=
                  if truthy_str error_message then error_message else None |}) →
  steps R (update_metadata E file_id file_name status file_size processed_key
             record_count error_message).
Proof.
  intros Hit. unfold update_metadata. do 2 (step; auto).
  apply steps_put_item, Hit.
Qed.

Lemma returns_generate_output_key input_key :
  returns (λ key, key ≠ EmptyString) (generate_output_key E input_key).
Proof.
  intros w key w' Hrun. destruct input_key; try discriminate.
  cbv [generate_output_key mbind M_bind now mret M_ret] in Hrun.
  injection Hrun as <- _. discriminate.
Qed.

Lemma steps_ingest bucket_name object_key file_size file_id :
  steps R (ingest E bucket_name object_key file_size file_id).
Proof.
  unfold ingest.
  step; [apply steps_update_metadata; intros; apply written_processing|].
  step; [auto|]. step; [apply steps_process_csv_data|].
  apply (steps_bind_returns R (λ key, key ≠ EmptyString));
    [apply steps_generate_output_key|apply returns_generate_output_key|].
  intros output_key Hkey. step; [auto|].
  apply steps_update_metadata. intros. cbn [truthy_str].
  destruct (String.eqb_spec output_key EmptyString) as [?|_]; [done|].
  apply written_completed; [exact Hkey|lia].
Qed.

Lemma steps_on_error locals e : steps R (on_error E locals e).
Proof.
  unfold on_error. step; [|step]. step; [|step].
  destruct locals as [[[file_id object_key] file_size]|]; [|step].
  apply steps_update_metadata. intros. apply written_failed.
  cbn [truthy_str]. destruct (String.eqb_spec e EmptyString); cbn; congruence.
Qed.

Lemma steps_process_s3_event s3_record : steps R (process_s3_event E s3_record).
Proof.
  unfold process_s3_event. step; [|apply steps_on_error].
  step; [step|]. destruct a as [[bucket_name object_key] file_size].
  step; [auto|]. step; [|apply steps_on_error].
  step; [apply steps_ingest|step].
Qed.

Lemma steps_outcomes (events : list json) (w : world) :
  R w (Batch.outcomes E events w).2.
Proof.
  revert w. induction events as [|ev events IH]; intros w; simpl; [reflexivity|].
  pose proof (steps_process_s3_event ev w) as Hev.
  destruct (process_s3_event E ev w) as [r w1]. specialize (IH w1).
  destruct (Batch.outcomes E events w1) as [bs w2]. simpl in *. by etrans.
Qed.

Lemma steps_handler (event : list sqs_record) : steps R (handler E event).
Proof. intros w. rewrite handler_outcomes. apply steps_outcomes. Qed.

End WorkerSteps.

Section WorkerInvariants.
Import Py Json Processor Stores.

#[local] Instance grows_preorder : PreOrder grows.
Proof.
  split.
  - intros w. unfold grows. auto.
  - intros w1 w2 w3 (Hr1 & Hm1 & Hp1 & Ht1) (Hr2 & Hm2 & Hp2 & Ht2).
    unfold grows. repeat split; [congruence|auto|auto|lia].
Qed.

#[local] Instance keeps_table_preorder : PreOrder keeps_table.
Proof. split; unfold keeps_table; [intros w; auto|intros w1 w2 w3; auto]. Qed.

Lemma written_well_formed (it : item) : written it → well_formed it.
Proof.
  destruct 1; unfold well_formed; cbn.
  - repeat split; try set_solver; try (intros [? ?]; discriminate); discriminate.
  - repeat split; try set_solver; eauto; try congruence; discriminate.
  - repeat split; try set_solver; try (intros [? ?]; discriminate);
      try discriminate; done.
Qed.

(** X1. The worker only adds to its stores: in a run of [handler] the
    upload bucket is left as it is, no metadata record and no processed
    object is removed, whatever the events and whatever fails. *)
Theorem handler_only_adds (E : env) (event : list sqs_record) (w : world) :
  grows w (handler E event w).2.
Proof.
  apply (steps_handler E grows).
  - intros w0. unfold grows. cbn. repeat split; auto.
  - intros w0 it _. unfold grows. cbn. repeat split; auto.
    intros id Hid. destruct (decide (fileId it = id)) as [->|Hne].
    + rewrite lookup_insert_eq. eauto.
    + by rewrite lookup_insert_ne.
  - intros w0 key data. unfold grows. cbn. repeat split; auto.
    intros key' Hkey. destruct (decide (key = key')) as [->|Hne].
    + rewrite lookup_insert_eq. eauto.
    + by rewrite lookup_insert_ne.
Qed.

(** X2. A metadata table in which every record is stored under its own
    identifier and carries the attributes of its status (recordCount and
    processedKey exactly on COMPLETED records, errorMessage only on FAILED
    ones, no empty text) is still such a table after a run of [handler]. *)
Theorem handler_keeps_table_well_formed (E : env) (event : list sqs_record)
    (w : world) :
  table_ok w → table_ok (handler E event w).2.
Proof.
  apply (steps_handler E keeps_table).
  - intros w0. unfold keeps_table. done.
  - intros w0 it Hit Hok id it'. cbn.
    destruct (decide (fileId it = id)) as [<-|Hne].
    + rewrite lookup_insert_eq. intros [= <-]. split; [done|].
      by apply written_well_formed.
    + rewrite lookup_insert_ne by done. apply Hok.
  - intros w0 key data. unfold keeps_table. done.
Qed.

(** Of the records that a scan returns of a table the worker has written
    to, only COMPLETED ones carry a record count: the premise under which
    the total-records figure of the report is stated. *)
Lemma scanned_counts_are_completed (E : env) (event : list sqs_record)
    (w : world) (data : list Reporter.item) :
  table_ok w →
  Forall (λ scanned, ∃ id it, metadata (handler E event w).2 !! id = Some it
                               ∧ shows it scanned) data →
  Forall (λ scanned,
            is_Some (Reporter.recordCount scanned)
            → Reporter.processingStatus scanned = Some "COMPLETED") data.
Proof.
  intros Hok Hdata. eapply Forall_impl; [exact Hdata|]. clear Hdata.
  intros scanned (id & it & Hit & Hstatus & Hcount) Hsome.
  assert (table_ok (handler E event w).2) as Hafter.
  { revert Hok. apply (steps_handler E keeps_table).
    - intros w0. unfold keeps_table. done.
    - intros w0 it0 Hit0 Hok0 id' it'. cbn.
      destruct (decide (fileId it0 = id')) as [<-|Hne].
      + rewrite lookup_insert_eq. intros [= <-]. split; [done|].
        by apply written_well_formed.
      + rewrite lookup_insert_ne by done. apply Hok0.
    - intros w0 key data0. unfold keeps_table. done. }
  destruct (Hafter id it Hit) as (_ & _ & Hcompleted & _).
  rewrite Hstatus. f_equal. apply Hcompleted. by rewrite <- Hcount.
Qed.

End WorkerInvariants.

(** ** One event, path by path *)

Section EventPaths.
Import Py Json Processor Stores.

Variable E : env.

Implicit Types (w : world) (s3_record bucket_name object_key file_size : json).

(** X3. A descriptor from which the bucket name, the key or the size cannot
    be read is reported failed and leaves no trace: no identifier is drawn,
    no metadata record is written, the stores are untouched. *)
Theorem unreadable_descriptor_leaves_no_trace s3_record w (msg : string) :
  event_details s3_record = Raise msg →
  process_s3_event E s3_record w = (Ok false, w).
Proof.
  intros Hdetails. unfold process_s3_event, try_except at 1.
  unfold mbind at 1, M_bind at 1, lift. rewrite Hdetails. reflexivity.
Qed.

(** X4. When the download of an event's object raises [msg] after the
    PROCESSING record was written, and the table accepts the next write, the
    event is reported failed and its record is replaced by a FAILED one that
    carries [msg] as errorMessage, or no errorMessage when [msg] is empty;
    nothing is written to the processed bucket. *)
Theorem download_failure_is_recorded s3_record bucket_name object_key file_size
    (msg : string) w :
  event_details s3_record = Ok (bucket_name, object_key, file_size) →
  fault E (3 + tick w) = None →
  fault E (4 + tick w) = Some msg →
  fault E (7 + tick w) = None →
  ∃ w', process_s3_event E s3_record w = (Ok false, w')
    ∧ metadata w' !! uuid4 E (tick w)
      = Some {| fileId := uuid4 E (tick w);
                fileName := object_key;
                processingStatus := "FAILED";
                uploadTimestamp := utcnow E (5 + tick w) - utcoffset E;
                fileSize := file_size;
                lastUpdated := isoformat (utcfromtimestamp (utcnow E (6 + tick w)));
                processedKey := None;
                recordCount := None;
                errorMessage := if decide (msg = EmptyString) then None else Some msg |}
    ∧ processed w' = processed w
    ∧ raw w' = raw w.
Proof.
  intros Hdetails Hcreate Hdownload Hfailed.
  unfold process_s3_event, try_except, ingest, on_error, try_except,
    update_metadata, put_item, get_object, service, now, new_uuid, lift,
    mbind, M_bind, mret, M_ret.
  rewrite Hdetails. cbn [tick bump]. cbn [Nat.add] in *.
  rewrite Hcreate. cbn [tick]. rewrite Hdownload. cbn [tick bump].
  rewrite Hfailed. cbn [tick bump metadata processed raw fileId].
  eexists. split; [reflexivity|]. cbn [bump metadata processed raw tick].
  rewrite lookup_insert_eq. repeat split.
  do 2 f_equal. unfold truthy_str.
  destruct (String.eqb_spec msg EmptyString), (decide (msg = EmptyString));
    done.
Qed.

(** X5. When the write of the FAILED record fails as well, that failure is
    swallowed: the event is still reported failed, and its record stays as
    the PROCESSING write left it. *)
Theorem swallowed_failure_leaves_processing s3_record bucket_name object_key
    file_size (msg msg' : string) w :
  event_details s3_record = Ok (bucket_name, object_key, file_size) →
  fault E (3 + tick w) = None →
  fault E (4 + tick w) = Some msg →
  fault E (7 + tick w) = Some msg' →
  ∃ w', process_s3_event E s3_record w = (Ok false, w')
    ∧ metadata w' !! uuid4 E (tick w)
      = Some {| fileId := uuid4 E (tick w);
                fileName := object_key;
                processingStatus := "PROCESSING";
                uploadTimestamp := utcnow E (1 + tick w) - utcoffset E;
                fileSize := file_size;
                lastUpdated := isoformat (utcfromtimestamp (utcnow E (2 + tick w)));
                processedKey := None;
                recordCount := None;
                errorMessage := None |}
    ∧ processed w' = processed w
    ∧ raw w' = raw w.
Proof.
  intros Hdetails Hcreate Hdownload Hfailed.
  unfold process_s3_event, try_except, ingest, on_error, try_except,
    update_metadata, put_item, get_object, service, now, new_uuid, lift,
    mbind, M_bind, mret, M_ret.
  rewrite Hdetails. cbn [tick bump]. cbn [Nat.add] in *.
  rewrite Hcreate. cbn [tick]. rewrite Hdownload. cbn [tick bump].
  rewrite Hfailed. cbn [tick bump metadata processed raw fileId].
  eexists. split; [reflexivity|]. cbn [bump metadata processed raw tick].
  rewrite lookup_insert_eq. repeat split.
Qed.

End EventPaths.

(** ** One event that succeeds *)

Section EventSuccess.
Import Py Json Processor Stores.

Variable E : env.

Implicit Types (w : world) (s3_record bucket_name object_key file_size : json).

#[local] Instance same_stores_preorder : PreOrder same_stores.
Proof.
  split.
  - intros w. by unfold same_stores.
  - intros w1 w2 w3 (? & ? & ?) (? & ? & ?). unfold same_stores.
    repeat split; congruence.
Qed.

Lemma same_stores_bump w : same_stores w (bump w).
Proof. by unfold same_stores. Qed.

(** A sequence that returns has run both of its parts. *)
Lemma bind_ok {S A B} (m : M S A) (k : A → M S B) (s s' : S) (b : B) :
  (m ≫= k) s = (Ok b, s') → ∃ a s1, m s = (Ok a, s1) ∧ k a s1 = (Ok b, s').
Proof.
  unfold mbind, M_bind. destruct (m s) as [[a|e] s1]; [eauto|discriminate].
Qed.

Lemma update_metadata_ok file_id file_name status file_size processed_key
    record_count error_message w w' :
  update_metadata E file_id file_name status file_size processed_key record_count
    error_message w = (Ok tt, w') →
  w' = {| tick := 3 + tick w;
          metadata :=
            <[file_id :=
                {| fileId := file_id; fileName := file_name;
                   processingStatus := status;
                   uploadTimestamp := utcnow E (tick w) - utcoffset E;
                   fileSize := file_size;
                   lastUpdated := isoformat (utcfromtimestamp (utcnow E (1 + tick w)));
                   processedKey :=
                     if truthy_str processed_key then processed_key else None;
                   recordCount := record_count;
                   errorMessage :=
                     if truthy_str error_message then error_message else None |}]>
              (metadata w);
          raw := raw w;
          processed := processed w |}.
Proof.
  unfold update_metadata, put_item, service, now, mbind, M_bind.
  cbn [tick bump]. destruct (fault E _); [discriminate|].
  by intros [= <-].
Qed.

Lemma get_object_ok bucket_name object_key content w w' :
  get_object E bucket_name object_key w = (Ok content, w') →
  w' = bump w
  ∧ ∃ b k, bucket_name = JStr b ∧ object_key = JStr k
           ∧ raw w !! (b, k) = Some content.
Proof.
  unfold get_object, service. destruct (fault E _); [discriminate|].
  destruct bucket_name as [| | |b| |], object_key as [| | |k| |]; try discriminate.
  cbn [raw bump]. destruct (raw w !! (b, k)) as [c|] eqn:Hc; [|discriminate].
  intros [= <- <-]. eauto 10.
Qed.

Lemma put_object_ok key data w w' :
  put_object E key data w = (Ok tt, w') →
  w' = {| tick := S (tick w); metadata := metadata w; raw := raw w;
          processed := <[key := data]> (processed w) |}.
Proof.
  unfold put_object, service. destruct (fault E _); [discriminate|].
  by intros [= <-].
Qed.

Lemma process_csv_data_ok csv_content data w w' :
  process_csv_data E csv_content w = (Ok data, w') →
  same_stores w w'
  ∧ valid_records (summary data) = Z.of_nat (length (records data)).
Proof.
  intros Hrun. split.
  - pose proof (steps_process_csv_data E same_stores same_stores_bump csv_content w)
      as Hsame. by rewrite Hrun in Hsame.
  - unfold process_csv_data in Hrun.
    apply bind_ok in Hrun as ([sm recs] & w1 & Hrows & Hrun).
    destruct (process_rows_counts E (DictReader csv_content)
                {| total_records := 0; valid_records := 0; invalid_records := 0 |}
                [] w) as (sm' & recs' & w1' & Hrows' & _ & _ & _ & Hlen).
    rewrite Hrows in Hrows'. injection Hrows' as <- <- <-.
    cbv [mbind M_bind now mret M_ret] in Hrun. injection Hrun as <- _.
    cbn in *. lia.
Qed.

Lemma generate_output_key_ok input_key output_key w w' :
  generate_output_key E input_key w = (Ok output_key, w') →
  same_stores w w' ∧ truthy_str (Some output_key) = true.
Proof.
  intros Hrun. split.
  - pose proof (steps_generate_output_key E same_stores same_stores_bump input_key w)
      as Hsame. by rewrite Hrun in Hsame.
  - apply returns_generate_output_key in Hrun. cbn.
    by destruct (String.eqb_spec output_key EmptyString).
Qed.

(** X6. An event that is reported successful has left its output in the
    processed bucket and a COMPLETED record under the identifier drawn for
    it: the record names the key of the output and the number of its
    records, which is the number of valid rows, and carries the object key
    and the size of the notification. *)
Theorem success_leaves_output_and_record s3_record w :
  (process_s3_event E s3_record w).1 = Ok true →
  ∃ it output_key data bucket_name,
    event_details s3_record = Ok (bucket_name, fileName it, fileSize it)
    ∧ metadata (process_s3_event E s3_record w).2 !! uuid4 E (tick w) = Some it
    ∧ fileId it = uuid4 E (tick w)
    ∧ processingStatus it = "COMPLETED"
    ∧ processedKey it = Some output_key
    ∧ processed (process_s3_event E s3_record w).2 !! output_key = Some data
    ∧ recordCount it = Some (Z.of_nat (length (records data)))
    ∧ valid_records (summary data) = Z.of_nat (length (records data))
    ∧ errorMessage it = None.
Proof.
  destruct (process_s3_event E s3_record w) as [r wf] eqn:Hrun.
  cbn [fst snd]. intros ->. revert Hrun.
  unfold process_s3_event, try_except at 1.
  unfold mbind at 1, M_bind at 1, lift.
  destruct (event_details s3_record)
    as [[[bucket_name object_key] file_size]|msg] eqn:Hdetails.
  2: { destruct (on_error_ok E None msg w) as [w' ->]. discriminate. }
  unfold mbind at 1, M_bind at 1, new_uuid, try_except.
  destruct (mbind _ (ingest E _ _ _ _) (bump w)) as [[b|msg] w2] eqn:Hingest.
  2: { destruct (on_error_ok E (Some (uuid4 E (tick w), object_key, file_size)) msg w2)
         as [w' ->]. discriminate. }
  intros [= -> ->].
  apply bind_ok in Hingest as ([] & w3 & Hingest & [= ->]).
  unfold ingest in Hingest.
  apply bind_ok in Hingest as ([] & w4 & Hcreate & Hingest).
  apply bind_ok in Hingest as (content & w5 & Hget & Hingest).
  apply bind_ok in Hingest as (data & w6 & Hcsv & Hingest).
  apply bind_ok in Hingest as (output_key & w7 & Hkey & Hingest).
  apply bind_ok in Hingest as ([] & w8 & Hput & Hdone).
  apply process_csv_data_ok in Hcsv as [_ Hvalid].
  apply generate_output_key_ok in Hkey as [_ Hnonempty].
  apply put_object_ok in Hput as ->.
  apply update_metadata_ok in Hdone.
  rewrite Hnonempty in Hdone. subst wf.
  do 4 eexists. cbn [metadata processed tick].
  rewrite !lookup_insert_eq. cbn. repeat split; eauto.
Qed.

End EventSuccess.

(** ** The transform of a row, field by field *)


Section RowFacts.
Import Py Processor Rows.

Implicit Types (header r : list string).

Lemma fill_missing (keys : list string) (d : list (option string * cell)) :
  NoDup (d.*1 ++ (Some <$> keys)) →
  fold_left (λ d key, dict_set d (Some key) CNone) keys d
  = d ++ ((λ key, (Some key, CNone)) <$> keys).
Proof.
  revert d. induction keys as [|key keys IH]; intros d Hnodup; simpl.
  - by rewrite app_nil_r.
  - rewrite dict_set_fresh.
    + rewrite IH; [by rewrite <- app_assoc|].
      rewrite fmap_app, <- app_assoc. exact Hnodup.
    + apply NoDup_app in Hnodup as (_ & Hdisj & _).
      intros Hk. apply (Hdisj _ Hk). left.
Qed.

Lemma dict_row_split (h1 h2 r : list string) :
  NoDup (h1 ++ h2) → length r = length h1 →
  dict_row (h1 ++ h2) r = (λ kv, (Some kv.1, kv.2)) <$> filled (h1 ++ h2) r.
Proof.
  intros Hnodup Hlen. rewrite filled_split by done. unfold dict_row.
  destruct (Nat.ltb_spec (length (h1 ++ h2)) (length r)) as [Hlt|_].
  { rewrite length_app in Hlt. lia. }
  rewrite Hlen, drop_app_length.
  assert (zip (Some <$> h1 ++ h2) (CStr <$> r)
          = (λ kv : string * cell, (Some kv.1, kv.2)) <$> zip h1 (CStr <$> r)) as ->.
  { rewrite fmap_app. clear -Hlen. revert r Hlen.
    induction h1 as [|k h1 IH]; intros [|x r] Hlen; simplify_eq/=; try done.
    - by destruct h2.
    - by rewrite IH. }
  assert (((λ kv : string * cell, (Some kv.1, kv.2)) <$> zip h1 (CStr <$> r)).*1
          = Some <$> h1) as Hkeys.
  { clear -Hlen. revert r Hlen.
    induction h1 as [|k h1 IH]; intros [|x r] Hlen; simplify_eq/=; try done.
    by rewrite IH. }
  unfold dict_of. rewrite dict_of_fresh.
  2: { rewrite Hkeys. simpl. apply NoDup_fmap_2; [apply _|].
       by apply NoDup_app in Hnodup as (? & _ & _). }
  rewrite app_nil_l, fill_missing.
  2: { rewrite Hkeys, <- fmap_app. by apply NoDup_fmap_2; [apply _|]. }
  rewrite fmap_app, <- list_fmap_compose. done.
Qed.

(** [DictReader] on a row that is not longer than a header without
    repeated names. *)
Lemma dict_row_filled header r :
  NoDup header → (length r ≤ length header)%nat →
  dict_row header r = (λ kv, (Some kv.1, kv.2)) <$> filled header r.
Proof.
  intros Hnodup Hshort.
  rewrite <- (take_drop (length r) header) in Hnodup.
  rewrite <- (take_drop (length r) header).
  apply dict_row_split; [done|]. rewrite length_take. lia.
Qed.

Lemma clean_items_fields (pairs acc : list (string * cell)) :
  NoDup (acc.*1 ++ (strip ∘ fst <$> pairs)) →
  clean_items ((λ kv, (Some kv.1, kv.2)) <$> pairs) acc
  = Ok (acc ++ ((λ kv, (strip kv.1, clean_cell kv.2)) <$> pairs)).
Proof.
  revert acc. induction pairs as [|[k v] pairs IH]; intros acc Hnodup.
  - by rewrite app_nil_r.
  - cbn [fmap list_fmap clean_items fst snd]. fold (clean_cell v).
    rewrite dict_set_fresh.
    + rewrite IH; [by rewrite <- app_assoc|].
      rewrite fmap_app, <- app_assoc. exact Hnodup.
    + apply NoDup_app in Hnodup as (_ & Hdisj & _).
      intros Hk. apply (Hdisj _ Hk). left.
Qed.

Lemma filled_keys header r :
  (length r ≤ length header)%nat → (filled header r).*1 = header.
Proof.
  intros Hshort. unfold filled. apply fst_zip.
  rewrite length_app, length_fmap, length_replicate. lia.
Qed.

Lemma trimmed_filled header r :
  trimmed header r = (λ kv, (strip kv.1, clean_cell kv.2)) <$> filled header r.
Proof.
  unfold trimmed, filled.
  replace ((CStr ∘ strip <$> r) ++ replicate (length header - length r) CNone)
    with (clean_cell <$> ((CStr <$> r) ++ replicate (length header - length r) CNone)).
  - generalize ((CStr <$> r) ++ replicate (length header - length r) CNone).
    induction header as [|k header IH]; intros [|v cells]; simpl; try done.
    by rewrite IH.
  - rewrite fmap_app, fmap_replicate, <- list_fmap_compose. done.
Qed.

(** The transform of a row that is not longer than the header, when the
    trimmed names of the header differ from one another and from the two
    names the worker adds. *)
Lemma process_row_stamped (E : env) header r sm recs (w : world) :
  NoDup (strip <$> header) →
  "processed_at" ∉ strip <$> header →
  "row_id" ∉ strip <$> header →
  (length r ≤ length header)%nat →
  process_row E (sm, recs) (dict_row header r) w
  = (Ok ({| total_records := total_records sm + 1;
            valid_records := valid_records sm + 1;
            invalid_records := invalid_records sm |},
         recs ++ [stamped header r
                    (isoformat (utcfromtimestamp (utcnow E (tick w))))
                    (uuid4 E (S (tick w)))]),
     bump (bump w)).
Proof.
  intros Hnodup Hat Hid Hshort.
  assert ((strip ∘ fst <$> filled header r) = strip <$> header) as Hnames
    by (by rewrite list_fmap_compose, filled_keys).
  assert (((λ kv : string * cell, (strip kv.1, clean_cell kv.2))
             <$> filled header r).*1 = strip <$> header) as Hkeys.
  { rewrite <- list_fmap_compose. exact Hnames. }
  unfold process_row, try_except. unfold mbind at 1, M_bind at 1, lift.
  rewrite dict_row_filled by (try done; by apply NoDup_fmap_1 in Hnodup).
  rewrite clean_items_fields by (by rewrite Hnames).
  cbv [mbind M_bind now new_uuid mret M_ret]. cbn [tick bump app].
  rewrite (dict_set_fresh _ "processed_at") by (by rewrite Hkeys).
  cbn [total_records valid_records invalid_records].
  rewrite dict_set_fresh.
  2: { rewrite fmap_app, Hkeys. rewrite not_elem_of_app. split; [done|].
       cbn. rewrite list_elem_of_singleton. done. }
  unfold stamped. rewrite trimmed_filled, <- app_assoc. reflexivity.
Qed.

Lemma process_rows_stamped (E : env) header (rows : list (list string)) sm recs
    (w : world) :
  NoDup (strip <$> header) →
  "processed_at" ∉ strip <$> header →
  "row_id" ∉ strip <$> header →
  Forall (λ r, (length r ≤ length header)%nat) rows →
  ∃ sm' recs' w',
    process_rows E (dict_row header <$> rows) (sm, recs) w
    = (Ok (sm', recs ++ recs'), w')
    ∧ Forall2 (λ rec r, ∃ processed_at n,
                 rec = stamped header r processed_at (uuid4 E n))
        recs' rows.
Proof.
  intros Hnodup Hat Hid Hshort. revert sm recs w.
  induction Hshort as [|r rows Hr _ IH]; intros sm recs w.
  - exists sm, [], w. rewrite app_nil_r. split; [reflexivity|constructor].
  - cbn [fmap list_fmap process_rows]. unfold mbind at 1, M_bind at 1.
    rewrite process_row_stamped by done.
    edestruct IH as (sm' & recs' & w' & Hrun & Hrecs).
    rewrite Hrun. do 3 eexists. rewrite <- app_assoc. split; [reflexivity|].
    constructor; [eauto|exact Hrecs].
Qed.

(** X7. On a delimited input whose header names, once trimmed, differ from
    one another and from [processed_at] and [row_id], and whose data rows
    are not longer than the header, the records of the output are the
    non-blank data rows in their order: each is the row's fields under the
    trimmed names, values trimmed and [None] for the fields the row lacks,
    followed by a [processed_at] field and by a [row_id] field that holds
    an identifier drawn for it. *)
Theorem records_are_trimmed_rows (E : env) header (rows : list (list string))
    (w : world) :
  NoDup (strip <$> header) →
  "processed_at" ∉ strip <$> header →
  "row_id" ∉ strip <$> header →
  Forall (λ r, (length r ≤ length header)%nat) rows →
  ∃ data w',
    process_csv_data E (header :: rows) w = (Ok data, w')
    ∧ Forall2 (λ rec r, ∃ processed_at n,
                 rec = stamped header r processed_at (uuid4 E n))
        (records data) (filter (λ r, r ≠ []) rows).
Proof.
  intros Hnodup Hat Hid Hshort.
  unfold process_csv_data. cbn [DictReader]. unfold mbind at 1, M_bind at 1.
  destruct (process_rows_stamped E header (filter (λ r, r ≠ []) rows)
              {| total_records := 0; valid_records := 0; invalid_records := 0 |}
              [] w Hnodup Hat Hid) as (sm & recs & w1 & -> & Hrecs).
  { rewrite Forall_forall in Hshort |- *. intros r Hr.
    apply list_elem_of_filter in Hr as [_ Hr]. by apply Hshort. }
  do 2 eexists. split; [reflexivity|]. exact Hrecs.
Qed.

End RowFacts.

(** ** The key of the output *)

Section OutputKey.
Import Py Json Processor.

Implicit Types (c : ascii) (s : string).

Lemma split_nonempty c s : split c s ≠ [].
Proof.
  destruct s as [|a s]; simpl; [done|].
  destruct (decide (a = c)); [done|]. by destruct (split c s).
Qed.

(** Splitting at a separator that is written out. *)
Lemma split_app c s1 s2 :
  split c (s1 +:+ String c s2) = split c s1 ++ split c s2.
Proof.
  induction s1 as [|a s1 IH]; simpl.
  - by rewrite decide_True.
  - destruct (decide (a = c)); [by rewrite IH|].
    rewrite IH. pose proof (split_nonempty c s1).
    by destruct (split c s1).
Qed.

Lemma split_no_separator c s :
  c ∉ String.list_ascii_of_string s → split c s = [s].
Proof.
  induction s as [|a s IH]; simpl; [done|].
  rewrite not_elem_of_cons. intros [Hne Hs].
  rewrite decide_False by done. by rewrite IH.
Qed.

(** Joining what was split gives the string back. *)
Lemma join_split c s : join c (split c s) = s.
Proof.
  induction s as [|a s IH]; simpl; [done|].
  pose proof (split_nonempty c s) as Hne.
  destruct (split c s) as [|h t] eqn:Hs; [done|].
  destruct (decide (a = c)) as [->|_].
  - change (join c (EmptyString :: h :: t)) with (String c (join c (h :: t))).
    by rewrite IH.
  - destruct t as [|h' t]; cbn [join] in *; by rewrite <- IH.
Qed.

Lemma last_app_nonempty {A} (l1 l2 : list A) (d : A) :
  l2 ≠ [] → List.last (l1 ++ l2) d = List.last l2 d.
Proof.
  intros Hl2. induction l1 as [|x l1 IH]; [done|].
  simpl. rewrite IH. destruct (l1 ++ l2) eqn:Happ; [|done].
  by destruct l1, l2.
Qed.

(** [s.rsplit(c, 1)[0]] drops what follows the last separator. *)
Lemma rsplit1_head_app c s1 s2 :
  c ∉ String.list_ascii_of_string s2 →
  rsplit1_head c (s1 +:+ String c s2) = s1.
Proof.
  intros Hs2. unfold rsplit1_head.
  rewrite split_app, (split_no_separator c s2), reverse_snoc by done.
  pose proof (split_nonempty c s1) as Hne.
  destruct (reverse (split c s1)) as [|x front] eqn:Hrev.
  - apply (f_equal reverse) in Hrev. rewrite reverse_involutive in Hrev. done.
  - rewrite <- Hrev, reverse_involutive. apply join_split.
Qed.

Lemma rsplit1_head_no_separator c s :
  c ∉ String.list_ascii_of_string s → rsplit1_head c s = s.
Proof. intros Hs. unfold rsplit1_head. by rewrite split_no_separator. Qed.

Lemma list_ascii_of_string_app s1 s2 :
  String.list_ascii_of_string (s1 +:+ s2)
  = String.list_ascii_of_string s1 ++ String.list_ascii_of_string s2.
Proof. induction s1 as [|a s1 IH]; simpl; by rewrite ?IH. Qed.

Variable E : env.

(** X8. The key of the output is made from the last segment of the object
    key alone: objects of the same name in different folders, processed in
    the same second, are given the same output key. *)
Theorem output_key_ignores_folder (folder name : string) (w : world) :
  generate_output_key E (JStr (folder +:+ String "/" name)) w
  = generate_output_key E (JStr name) w.
Proof.
  cbn [generate_output_key].
  by rewrite split_app, last_app_nonempty by apply split_nonempty.
Qed.

(** X9. For an object key [folder/base.ext], where [base] and [ext] have no
    slash and [ext] has no dot, the output key is
    [processed/<year>/<month>/<day>/<base>_<HHMMSS>.json] at the time the
    key is generated, month, day and time of day in two digits: only the
    last extension is removed. *)
Theorem output_key_of_named_object (folder base ext : string) (w : world) :
  "/"%char ∉ String.list_ascii_of_string base →
  "/"%char ∉ String.list_ascii_of_string ext →
  "."%char ∉ String.list_ascii_of_string ext →
  generate_output_key E (JStr (folder +:+ String "/" (base +:+ String "." ext))) w
  = (let dt := utcfromtimestamp (utcnow E (tick w)) in
     Ok ("processed/" +:+ pretty (year dt) +:+ "/" +:+ pad2 (month dt) +:+ "/"
         +:+ pad2 (day dt) +:+ "/" +:+ base +:+ "_" +:+ pad2 (hour dt)
         +:+ pad2 (minute dt) +:+ pad2 (second dt) +:+ ".json"),
     bump w).
Proof.
  intros Hbase Hext Hdot. cbn [generate_output_key].
  rewrite split_app, last_app_nonempty by apply split_nonempty.
  rewrite split_no_separator.
  - cbn [List.last]. by rewrite rsplit1_head_app.
  - rewrite list_ascii_of_string_app. cbn [String.list_ascii_of_string].
    rewrite not_elem_of_app, not_elem_of_cons. done.
Qed.

End OutputKey.

(** ** Batches in parts *)

Section BatchParts.
Import Py Json Processor Batch.

(** X10. A batch processed in one invocation gives what its two parts give
    when processed one after the other: the same stores, and the sums of the
    two counts. *)
Theorem handler_of_two_parts (E : env) (first second : list sqs_record)
    (w : world) :
  ∃ r1 r2 w1 w2,
    handler E first w = (Ok r1, w1)
    ∧ handler E second w1 = (Ok r2, w2)
    ∧ handler E (first ++ second) w
      = (Ok {| statusCode := 200;
               body_successful := body_successful r1 + body_successful r2;
               body_failed := body_failed r1 + body_failed r2 |}, w2).
Proof.
  do 4 eexists. split; [apply handler_outcomes|]. split; [apply handler_outcomes|].
  rewrite handler_outcomes. unfold all_events.
  rewrite fmap_app, concat_app, outcomes_app. cbn [fst snd].
  unfold tally. cbn [body_successful body_failed].
  rewrite !List.filter_app, !length_app. do 2 f_equal. f_equal; lia.
Qed.

End BatchParts.

(** ** The report: counters that add up *)

Section Totals.
Import Py Reporter Totals.

Variables (cfg : config) (now : Z).

Implicit Types (data : list item) (it : item)
  (hourly : list (string * hour_stats)).

Lemma generate_report_counters data (start_time end_time : Z) :
  ∃ r, generate_report cfg now data start_time end_time = Ok r
    ∧ total_files_processed (report_summary r) = Z.of_nat (length data)
    ∧ successful_files (report_summary r)
      = Z.of_nat (length (List.filter (status_is "COMPLETED") data))
    ∧ failed_files (report_summary r)
      = Z.of_nat (length (List.filter (status_is "FAILED") data))
    ∧ in_progress_files (report_summary r)
      = Z.of_nat (length (List.filter (status_is "PROCESSING") data))
    ∧ hourly_breakdown r = fold_left (hourly_step cfg) data [].
Proof.
  unfold generate_report, truediv.
  change (1024 * 1024 =? 0) with false. cbv iota.
  rewrite !sum_ones.
  destruct (Z.ltb_spec 0 (Z.of_nat (length data))) as [Hpos|Hzero].
  - destruct (Z.eqb_spec (Z.of_nat (length data)) 0) as [?|_]; [lia|].
    eexists. split; [reflexivity|]. cbn. by repeat (split; [reflexivity|]).
  - eexists. split; [reflexivity|]. cbn. by repeat (split; [reflexivity|]).
Qed.

Lemma status_is_exclusive (a b : string) it :
  a ≠ b → status_is a it = true → status_is b it = false.
Proof.
  unfold status_is. intros Hne Ha. apply bool_decide_eq_true in Ha.
  apply bool_decide_eq_false. congruence.
Qed.

Lemma status_partition data :
  (length (List.filter (status_is "COMPLETED") data)
   + length (List.filter (status_is "FAILED") data)
   + length (List.filter (status_is "PROCESSING") data)
   + length (List.filter other_status data))%nat
  = length data.
Proof.
  induction data as [|it data IH]; [reflexivity|].
  cbn [List.filter]. unfold other_status at 1.
  destruct (status_is "COMPLETED" it) eqn:Hc.
  - rewrite (status_is_exclusive "COMPLETED" "FAILED"),
      (status_is_exclusive "COMPLETED" "PROCESSING") by done.
    cbn [negb orb length]. lia.
  - destruct (status_is "FAILED" it) eqn:Hf.
    + rewrite (status_is_exclusive "FAILED" "PROCESSING") by done.
      cbn [negb orb length]. lia.
    + destruct (status_is "PROCESSING" it); cbn [negb orb length]; lia.
Qed.

(** X11. In a report the counts of successful, failed and in-progress files
    add up to the total less the records whose status is none of COMPLETED,
    FAILED and PROCESSING, or is absent: such records are counted in the
    total (and in the success rate's denominator) and nowhere else. *)
Theorem status_counts_add_up data (start_time end_time : Z) :
  ∃ r, generate_report cfg now data start_time end_time = Ok r
    ∧ successful_files (report_summary r) + failed_files (report_summary r)
      + in_progress_files (report_summary r)
      = total_files_processed (report_summary r)
        - Z.of_nat (length (List.filter other_status data)).
Proof.
  destruct (generate_report_counters data start_time end_time)
    as (r & Hr & Ht & Hs & Hf & Hp & _).
  exists r. split; [exact Hr|]. rewrite Ht, Hs, Hf, Hp.
  pose proof (status_partition data). lia.
Qed.

(** A counter summed over the buckets, after one bucket is set. *)
Lemma over_hours_set (counter : hour_stats → Z) hourly (hour : string)
    (st : hour_stats) :
  over_hours counter (dict_set hourly hour st)
  = over_hours counter hourly
    - from_option counter 0 (dict_get hourly hour) + counter st.
Proof.
  unfold over_hours. induction hourly as [|[k v] hourly IH]; cbn.
  - lia.
  - destruct (decide (hour = k)); cbn; [lia|]. rewrite IH. lia.
Qed.

Lemma dict_set_keys_NoDup hourly (hour : string) (st : hour_stats) :
  NoDup hourly.*1 → NoDup (dict_set hourly hour st).*1.
Proof.
  intros Hnodup. destruct (dict_get hourly hour) eqn:Hget.
  - assert ((dict_set hourly hour st).*1 = hourly.*1) as ->; [|done].
    clear Hnodup. induction hourly as [|[k v] hourly IH]; [done|].
    cbn in *. destruct (decide (hour = k)) as [->|]; cbn; [done|].
    by rewrite IH.
  - apply dict_get_None in Hget. rewrite dict_set_fresh by done.
    rewrite fmap_app. apply NoDup_app. split; [done|].
    split; [|apply NoDup_singleton].
    intros k Hk. cbn. rewrite list_elem_of_singleton. by intros ->.
Qed.

(** What one record adds to the hourly breakdown. *)
Lemma hourly_step_adds hourly it :
  over_hours count (hourly_step cfg hourly it) = over_hours count hourly + 1
  ∧ over_hours completed (hourly_step cfg hourly it)
    = over_hours completed hourly + one_if (status_is "COMPLETED" it)
  ∧ over_hours failed (hourly_step cfg hourly it)
    = over_hours failed hourly + one_if (status_is "FAILED" it)
  ∧ (NoDup hourly.*1 → NoDup (hourly_step cfg hourly it).*1).
Proof.
  unfold hourly_step.
  set (hour := hour_key (fromtimestamp cfg (default 0 (uploadTimestamp it)))).
  destruct (dict_get hourly hour) as [st|] eqn:Hget.
  - rewrite Hget. cbn [default from_option id].
    rewrite !over_hours_set, Hget. cbn [from_option].
    pose proof (status_is_exclusive "COMPLETED" "FAILED" it ltac:(done)) as Hexcl.
    repeat split; [| | |by apply dict_set_keys_NoDup].
    all: destruct (status_is "COMPLETED" it);
      [rewrite ?Hexcl by done|destruct (status_is "FAILED" it)]; cbn; lia.
  - rewrite dict_get_set. cbn [default from_option id].
    rewrite !over_hours_set, !dict_get_set, Hget.
    cbn [from_option count completed failed].
    pose proof (status_is_exclusive "COMPLETED" "FAILED" it ltac:(done)) as Hexcl.
    repeat split; [| | |by intros; do 2 apply dict_set_keys_NoDup].
    all: destruct (status_is "COMPLETED" it);
      [rewrite ?Hexcl by done|destruct (status_is "FAILED" it)]; cbn; lia.
Qed.

Lemma hourly_loop data hourly :
  over_hours count (fold_left (hourly_step cfg) data hourly)
  = over_hours count hourly + Z.of_nat (length data)
  ∧ over_hours completed (fold_left (hourly_step cfg) data hourly)
    = over_hours completed hourly
      + Z.of_nat (length (List.filter (status_is "COMPLETED") data))
  ∧ over_hours failed (fold_left (hourly_step cfg) data hourly)
    = over_hours failed hourly
      + Z.of_nat (length (List.filter (status_is "FAILED") data))
  ∧ (NoDup hourly.*1 → NoDup (fold_left (hourly_step cfg) data hourly).*1).
Proof.
  revert hourly. induction data as [|it data IH]; intros hourly.
  - cbn [fold_left List.filter length]. repeat split; try lia; auto.
  - cbn [fold_left List.filter].
    destruct (IH (hourly_step cfg hourly it)) as (Hc & Hs & Hf & Hk).
    destruct (hourly_step_adds hourly it) as (Hc1 & Hs1 & Hf1 & Hk1).
    rewrite Hc, Hs, Hf, Hc1, Hs1, Hf1. unfold one_if.
    repeat split; [| | |auto].
    all: destruct (status_is "COMPLETED" it), (status_is "FAILED" it);
      cbn [length]; lia.
Qed.

(** X12. The hourly breakdown of a report accounts for every record once:
    the bucket counts add up to the total, the completed counts to the
    number of successful files and the failed counts to the number of
    failed files; and every hour has one bucket. *)
Theorem hourly_breakdown_adds_up data (start_time end_time : Z) :
  ∃ r, generate_report cfg now data start_time end_time = Ok r
    ∧ over_hours count (hourly_breakdown r)
      = total_files_processed (report_summary r)
    ∧ over_hours completed (hourly_breakdown r)
      = successful_files (report_summary r)
    ∧ over_hours failed (hourly_breakdown r) = failed_files (report_summary r)
    ∧ NoDup (hourly_breakdown r).*1.
Proof.
  destruct (generate_report_counters data start_time end_time)
    as (r & Hr & Ht & Hs' & Hf' & _ & Hh).
  exists r. split; [exact Hr|]. rewrite Ht, Hs', Hf', Hh.
  destruct (hourly_loop data []) as (Hc & Hs & Hf & Hk).
  rewrite Hc, Hs, Hf. cbn. repeat split; try lia. apply Hk. constructor.
Qed.

End Totals.

(** ** The report: ranking and fetching *)

Section Ranking.
Import Py Reporter.

Variables (cfg : config) (now : Z).

(** X13. As soon as a record of the window has a non-zero recordCount, the
    top-files list has a first entry, and no such record has a larger
    recordCount than that entry. *)
Theorem first_top_file_is_largest (data : list item) (start_time end_time : Z)
    (it : item) :
  In it data →
  truthy_int (recordCount it) = true →
  ∃ r f,
    generate_report cfg now data start_time end_time = Ok r
    ∧ head (top_files r) = Some f
    ∧ default 0 (recordCount it) ≤ top_recordCount f.
Proof.
  intros Hin Htruthy.
  destruct (generate_report_ok cfg now data start_time end_time)
    as (r & Hr & _ & _ & _ & _ & _ & _ & Htop).
  set (candidates :=
         Spec.top_entry <$> List.filter (λ it, truthy_int (recordCount it)) data)
    in *.
  assert (Spec.top_entry it ∈ sorted_reverse top_recordCount candidates) as Hmem.
  { rewrite sorted_reverse_perm. apply list_elem_of_fmap_2, list_elem_of_In.
    apply filter_In. by split. }
  pose proof (sorted_reverse_sorted top_recordCount candidates) as Hsorted.
  destruct (sorted_reverse top_recordCount candidates) as [|f ranked] eqn:Hranked.
  { by apply elem_of_nil in Hmem. }
  exists r, f. split; [exact Hr|]. split; [by rewrite Htop|].
  apply elem_of_cons in Hmem as [<-|Hmem]; [cbn; lia|].
  apply StronglySorted_inv in Hsorted as [_ Hf].
  rewrite Forall_forall in Hf. apply Hf in Hmem. exact Hmem.
Qed.

End Ranking.

Section Repagination.
Import Py Reporter.

Lemma fetch_all (table : list (list item)) (lo hi : Z) :
  fetch_report_data (length table) table lo hi
  = Some (List.filter (between lo hi) (concat table)).
Proof.
  unfold fetch_report_data.
  rewrite follow_pages_all by (simpl; lia).
  destruct table as [|page rest]; [reflexivity|].
  cbn. by rewrite List.filter_app.
Qed.

(** X14. What the fetch returns does not depend on where the store cuts its
    pages: two tables that hold the same records in the same order give the
    same list, whatever the number and the sizes of their pages. *)
Theorem fetch_ignores_page_boundaries (table table' : list (list item))
    (lo hi : Z) :
  concat table = concat table' →
  fetch_report_data (length table) table lo hi
  = fetch_report_data (length table') table' lo hi.
Proof. intros Hsame. by rewrite !fetch_all, Hsame. Qed.

End Repagination.

(** ** The run of the report generator *)

Section DeliverySteps.
Import Py Reporter Stores Delivery.

Variables (E : env) (cfg : config).

Implicit Types (w : world) (r : report).

#[local] Instance quiet_preorder : PreOrder quiet.
Proof.
  split.
  - intros w. by unfold quiet.
  - intros w1 w2 w3 (? & ? & ?) (? & ? & ?). unfold quiet.
    repeat split; congruence.
Qed.

Lemma quiet_now : steps quiet (now E).
Proof. intros w. by unfold quiet. Qed.

Lemma quiet_scan_table keep key : steps quiet (scan_table E keep key).
Proof. intros w. unfold scan_table, service. by destruct (fault E (tick w)). Qed.

Lemma quiet_follow_pages fuel keep response items :
  steps quiet (follow_pages E fuel keep response items).
Proof.
  revert response items. induction fuel as [|fuel IH]; intros response items;
    cbn [follow_pages]; destruct (LastEvaluatedKey response); try step.
  - apply quiet_scan_table.
  - apply IH.
Qed.

(** The fetch reads: it leaves the table, the reports and the
    notifications as they are, whether it returns or raises. *)
Lemma quiet_fetch fuel start_time end_time :
  steps quiet (fetch_report_data E cfg fuel start_time end_time).
Proof.
  unfold fetch_report_data. cbv zeta. step; [apply quiet_scan_table|].
  apply quiet_follow_pages.
Qed.

(** Without a failing call, the loop returns what the loop of the pure
    fetch returns on the table. *)
Lemma follow_pages_calm fuel keep response items (l : list item) w :
  (∀ n, fault E n = None) →
  Reporter.follow_pages fuel (table w) keep response items = Some l →
  ∃ w', follow_pages E fuel keep response items w = (Ok l, w') ∧ quiet w w'.
Proof.
  intros Hcalm. revert response items w.
  induction fuel as [|fuel IH]; intros response items w;
    cbn [follow_pages Reporter.follow_pages];
    destruct (LastEvaluatedKey response) as [key|]; try done.
  - intros [= <-]. exists w. by split.
  - intros Hpure. unfold mbind, M_bind, scan_table, service.
    rewrite Hcalm. cbn [table bump].
    apply (IH _ _ (bump w)) in Hpure as (w' & Hrun & Hq). cbn [table bump] in Hrun.
    rewrite Hrun. exists w'. split; [reflexivity|].
    etrans; [|exact Hq]. by unfold quiet.
  - intros [= <-]. exists w. by split.
Qed.

Lemma fetch_calm start_time end_time w :
  (∀ n, fault E n = None) →
  ∃ w', fetch_report_data E cfg (length (table w)) start_time end_time w
        = (Ok (List.filter
                 (between (local_timestamp (utcoffset cfg) start_time)
                    (local_timestamp (utcoffset cfg) end_time))
                 (concat (table w))), w')
        ∧ quiet w w'.
Proof.
  intros Hcalm.
  pose proof (fetch_all (table w) (local_timestamp (utcoffset cfg) start_time)
                (local_timestamp (utcoffset cfg) end_time)) as Hpure.
  unfold Reporter.fetch_report_data in Hpure.
  unfold fetch_report_data, mbind, M_bind, scan_table, service.
  rewrite Hcalm. cbn [table bump].
  apply (follow_pages_calm _ _ _ _ _ (bump w) Hcalm) in Hpure as (w' & Hrun & Hq).
  cbn [table bump] in Hrun. rewrite Hrun.
  exists w'. split; [reflexivity|]. etrans; [|exact Hq]. by unfold quiet.
Qed.

(** What [save_report_to_s3] can do: fail on the first write, fail on the
    second with the JSON report stored, or store both and return the key. *)
Lemma save_report_cases r (timestamp : Z) w :
  let key := report_key_at timestamp in
  let html_key := replace ".json" ".html" key in
  ∃ res w' written,
    save_report_to_s3 E r timestamp w = (res, w')
    ∧ table w' = table w ∧ published w' = published w
    ∧ reports w' = reports w ++ written
    ∧ match res with
      | Ok key' => key' = key ∧ written = [(key, JsonOf r); (html_key, HtmlOf r)]
      | Raise _ => written = [] ∨ written = [(key, JsonOf r)]
      end.
Proof.
  cbv zeta. unfold save_report_to_s3, put_object, service, mbind, M_bind.
  destruct (fault E (tick w)) as [e|].
  { do 2 eexists. exists []. rewrite app_nil_r. cbn. eauto 10. }
  cbn [tick bump]. destruct (fault E (S (tick w))) as [e|].
  { do 3 eexists. split; [reflexivity|]. cbn. eauto 10. }
  do 3 eexists. split; [reflexivity|]. cbn. rewrite <- app_assoc. eauto 10.
Qed.

Lemma send_notification_cases r (report_key : string) w :
  ∃ res w',
    send_notification E cfg r report_key w = (res, w')
    ∧ table w' = table w ∧ reports w' = reports w
    ∧ match res with
      | Ok _ =>
          published w'
          = published w
            ++ [(report_subject cfg (utcnow E (tick w)), SummaryOf r report_key)]
      | Raise _ => published w' = published w
      end.
Proof.
  unfold send_notification, publish, service, now, mbind, M_bind.
  cbn [tick bump]. destruct (fault E (S (tick w))) as [e|].
  - do 2 eexists. split; [reflexivity|]. by cbn.
  - do 2 eexists. split; [reflexivity|]. by cbn.
Qed.

Lemma send_error_notification_cases (e : string) w :
  ∃ res w',
    send_error_notification E cfg e w = (res, w')
    ∧ table w' = table w ∧ reports w' = reports w
    ∧ match res with
      | Ok _ => published w' = published w ++ [(error_subject cfg, FailureOf e)]
      | Raise _ => published w' = published w
      end.
Proof.
  unfold send_error_notification, publish, service, now, mbind, M_bind.
  cbn [tick bump]. destruct (fault E (S (tick w))) as [e'|].
  - do 2 eexists. split; [reflexivity|]. by cbn.
  - do 2 eexists. split; [reflexivity|]. by cbn.
Qed.

(** The [except] clause of [handler], from a state that has the table and
    the notifications of [w] and [written] more reports: status 500 when the
    error notification is published, and the exception of the publish
    otherwise. *)
Lemma handler_failure (e : string) (written : list (string * document)) w w1 :
  table w1 = table w → published w1 = published w →
  reports w1 = reports w ++ written →
  ∃ res w',
    (send_error_notification E cfg e;;
     mret {| statusCode := 500; body := Failed e |}) w1 = (res, w')
    ∧ table w' = table w
    ∧ reports w' = reports w ++ written
    ∧ match res with
      | Ok resp =>
          resp = {| statusCode := 500; body := Failed e |}
          ∧ published w' = published w ++ [(error_subject cfg, FailureOf e)]
      | Raise _ => published w' = published w
      end.
Proof.
  intros Ht Hp Hr. unfold mbind, M_bind.
  destruct (send_error_notification_cases e w1) as (res & w' & -> & Ht' & Hr' & Hres).
  destruct res as [[]|e']; do 2 eexists; (split; [reflexivity|]);
    cbn; rewrite Ht', Hr', Hres; repeat split; congruence.
Qed.

(** X15. Every run of [handler] ends in one of three ways. It returns
    status 200 with the key of the report: then the JSON report and its HTML
    page were stored, in this order, and one notification about that report
    was published. It returns status 500 with the message of the exception
    that stopped it: then the error notification was published, and the
    reports bucket may hold the JSON report, or both documents, all the
    same. Or it raises: that happens only when the error notification itself
    could not be published, so that nothing was published. The metadata
    table is never written. *)
Theorem handler_ends_in_three_ways w :
  let key := report_key_at (utcnow E (tick w)) in
  ∃ res w' written,
    handler E cfg w = (res, w')
    ∧ table w' = table w
    ∧ reports w' = reports w ++ written
    ∧ (written = []
       ∨ (∃ r, written = [(key, JsonOf r)])
       ∨ (∃ r, written = [(key, JsonOf r); (replace ".json" ".html" key, HtmlOf r)]))
    ∧ match res with
      | Ok resp =>
          (∃ r today,
             resp = {| statusCode := 200; body := Generated key |}
             ∧ written = [(key, JsonOf r); (replace ".json" ".html" key, HtmlOf r)]
             ∧ published w'
               = published w ++ [(report_subject cfg today, SummaryOf r key)])
          ∨ (∃ e,
               resp = {| statusCode := 500; body := Failed e |}
               ∧ published w' = published w ++ [(error_subject cfg, FailureOf e)])
      | Raise _ => published w' = published w
      end.
Proof.
  cbv zeta. unfold handler, try_except.
  unfold mbind at 1, M_bind at 1, now at 1.
  unfold mbind at 1, M_bind at 1, get.
  unfold mbind at 1, M_bind at 1. cbn [table bump].
  pose proof (quiet_fetch (length (table w)) (utcnow E (tick w) - 86400)
                (utcnow E (tick w)) (bump w)) as Hq.
  destruct (fetch_report_data E cfg _ _ _ (bump w)) as [[data|e] w1].
  2: { destruct Hq as (Ht & Hr & Hp).
       destruct (handler_failure e [] w w1) as (res & w' & Hrun & Ht' & Hr' & Hres);
         [done|done|by rewrite app_nil_r|].
       exists res, w', []. rewrite Hrun. repeat (split; [by auto|]).
       destruct res; [right; eauto|done]. }
  destruct Hq as (Ht1 & Hr1 & Hp1). cbn [snd table reports published bump] in *.
  unfold mbind at 1, M_bind at 1, now at 1.
  unfold mbind at 1, M_bind at 1, lift.
  destruct (generate_report_ok cfg (utcnow E (tick w1)) data
              (utcnow E (tick w) - 86400) (utcnow E (tick w)))
    as (r & -> & _).
  unfold mbind at 1, M_bind at 1.
  destruct (save_report_cases r (utcnow E (tick w)) (bump w1))
    as (res & w2 & written & -> & Ht2 & Hp2 & Hr2 & Hsaved).
  cbn [table reports published bump] in *.
  destruct res as [key'|e].
  2: { destruct (handler_failure e written w w2)
         as (res & w' & Hrun & Ht' & Hr' & Hres);
         [by rewrite Ht2|by rewrite Hp2|by rewrite Hr2, Hr1|].
       exists res, w', written. rewrite Hrun. repeat (split; [by auto|]).
       split; [destruct Hsaved as [->| ->]; eauto|].
       destruct res; [right; eauto|done]. }
  destruct Hsaved as [-> ->].
  unfold mbind at 1, M_bind at 1.
  destruct (send_notification_cases r (report_key_at (utcnow E (tick w))) w2)
    as (res & w3 & -> & Ht3 & Hr3 & Hsent).
  destruct res as [[]|e].
  - unfold mret, M_ret. do 3 eexists. split; [reflexivity|].
    split; [by rewrite Ht3, Ht2|]. split; [by rewrite Hr3, Hr2, Hr1|].
    split; [eauto|].
    left. exists r, (utcnow E (tick w2)). cbv beta iota in Hsent.
    rewrite Hsent, Hp2, Hp1. split; [done|]. split; done.
  - destruct (handler_failure e
                [(report_key_at (utcnow E (tick w)), JsonOf r);
                 (replace ".json" ".html" (report_key_at (utcnow E (tick w))),
                  HtmlOf r)] w w3)
      as (res & w' & Hrun & Ht' & Hr' & Hres);
      [by rewrite Ht3, Ht2|cbv beta iota in Hsent; by rewrite Hsent, Hp2
      |by rewrite Hr3, Hr2, Hr1|].
    exists res, w'. eexists. rewrite Hrun. repeat (split; [by eauto|]).
    destruct res; [right; eauto|done].
Qed.

Lemma save_report_calm r (timestamp : Z) w :
  (∀ n, fault E n = None) →
  save_report_to_s3 E r timestamp w
  = (Ok (report_key_at timestamp),
     {| tick := 2 + tick w; table := table w;
        reports :=
          reports w
          ++ [(report_key_at timestamp, JsonOf r);
              (replace ".json" ".html" (report_key_at timestamp), HtmlOf r)];
        published := published w |}).
Proof.
  intros Hcalm. unfold save_report_to_s3, put_object, service, mbind, M_bind.
  rewrite Hcalm. cbn [tick bump]. rewrite Hcalm.
  cbn [tick bump table reports published]. by rewrite <- app_assoc.
Qed.

Lemma send_notification_calm r (report_key : string) w :
  (∀ n, fault E n = None) →
  send_notification E cfg r report_key w
  = (Ok tt,
     {| tick := 2 + tick w; table := table w; reports := reports w;
        published :=
          published w
          ++ [(report_subject cfg (utcnow E (tick w)), SummaryOf r report_key)] |}).
Proof.
  intros Hcalm. unfold send_notification, publish, service, now, mbind, M_bind.
  cbn [tick bump]. by rewrite Hcalm.
Qed.

(** X16. When no call fails, [handler] returns status 200, and the report it
    stores and announces is the report of the records, from every page of
    the table, whose uploadTimestamp lies between the two timestamps that
    lines 78-79 make of the start and the end of the 24 hours before the
    time read when the run begins, both ends included. The two naive UTC
    times are read as local times there: in a process whose local time is
    ahead of UTC, the window of the scan lies that much before the period
    the report names. *)
Theorem handler_reports_last_day w :
  (∀ n, fault E n = None) →
  let end_time := utcnow E (tick w) in
  let start_time := end_time - 86400 in
  let key := report_key_at end_time in
  ∃ r generated today w',
    handler E cfg w = (Ok {| statusCode := 200; body := Generated key |}, w')
    ∧ generate_report cfg generated
        (List.filter
           (between (start_time - utcoffset cfg) (end_time - utcoffset cfg))
           (concat (table w)))
        start_time end_time = Ok r
    ∧ reports w'
      = reports w ++ [(key, JsonOf r); (replace ".json" ".html" key, HtmlOf r)]
    ∧ published w' = published w ++ [(report_subject cfg today, SummaryOf r key)]
    ∧ table w' = table w.
Proof.
  intros Hcalm. cbv zeta. unfold handler, try_except.
  unfold mbind at 1, M_bind at 1, now at 1.
  unfold mbind at 1, M_bind at 1, get.
  unfold mbind at 1, M_bind at 1. cbn [table bump].
  destruct (fetch_calm (utcnow E (tick w) - 86400) (utcnow E (tick w)) (bump w) Hcalm)
    as (w1 & Hfetch & Ht1 & Hr1 & Hp1).
  cbn [table reports published bump] in *. rewrite Hfetch.
  unfold local_timestamp.
  unfold mbind at 1, M_bind at 1, now at 1.
  unfold mbind at 1, M_bind at 1, lift.
  destruct (generate_report_ok cfg (utcnow E (tick w1))
              (List.filter
                 (between (utcnow E (tick w) - 86400 - utcoffset cfg)
                    (utcnow E (tick w) - utcoffset cfg))
                 (concat (table w)))
              (utcnow E (tick w) - 86400) (utcnow E (tick w)))
    as (r & Hr & _).
  rewrite Hr.
  unfold mbind at 1, M_bind at 1. rewrite save_report_calm by done.
  unfold mbind at 1, M_bind at 1. rewrite send_notification_calm by done.
  exists r, (utcnow E (tick w1)). do 2 eexists.
  split; [reflexivity|]. split; [exact Hr|].
  cbn [tick bump table reports published].
  by rewrite Hr1, Hp1, Ht1.
Qed.

End DeliverySteps.

(** ** The keys of the two documents *)

Section ReportKeys.
Import Py Reporter Delivery.

Implicit Types (s p : string).

Lemma append_assoc s1 s2 s3 : (s1 +:+ s2) +:+ s3 = s1 +:+ (s2 +:+ s3).
Proof.
  induction s1 as [|a s1 IH]; [done|].
  change (String a ((s1 +:+ s2) +:+ s3) = String a (s1 +:+ (s2 +:+ s3))).
  by rewrite IH.
Qed.

Lemma dotless_app s1 s2 : dotless s1 → dotless s2 → dotless (s1 +:+ s2).
Proof.
  unfold dotless. intros H1 H2.
  rewrite list_ascii_of_string_app, not_elem_of_app. done.
Qed.

Lemma pretty_N_char_digit (x : N) : pretty_N_char x ≠ "."%char.
Proof. unfold pretty_N_char. by repeat case_match. Qed.

Lemma dotless_pretty_N_go (x : N) s : dotless s → dotless (pretty_N_go x s).
Proof.
  unfold dotless. revert s. induction (N.lt_wf_0 x) as [x _ IH]; intros s Hs.
  destruct (decide (x = 0)%N) as [->|Hx]; [by rewrite pretty_N_go_0|].
  rewrite pretty_N_go_step by lia. apply IH.
  - apply N.div_lt; lia.
  - cbn. rewrite not_elem_of_cons. split; [|done].
    intros Hdot. by apply (pretty_N_char_digit (x `mod` 10)).
Qed.

Lemma dotless_pretty_Z (z : Z) : dotless (pretty z).
Proof.
  assert (∀ n : N, dotless (pretty n)) as HN.
  { intros n. unfold pretty, pretty_N. destruct (decide (n = 0)%N).
    - unfold dotless. cbn. rewrite not_elem_of_cons.
      split; [done|apply not_elem_of_nil].
    - apply dotless_pretty_N_go. apply not_elem_of_nil. }
  unfold pretty, pretty_Z. destruct z as [|p|p].
  - apply (HN 0%N).
  - apply HN.
  - apply dotless_app; [|apply HN]. unfold dotless. cbn.
    rewrite not_elem_of_cons. split; [done|apply not_elem_of_nil].
Qed.

Lemma dotless_literal_app s1 s2 :
  bool_decide ("."%char ∉ String.list_ascii_of_string s1) = true →
  dotless s2 → dotless (s1 +:+ s2).
Proof. intros H1%bool_decide_eq_true. by apply dotless_app. Qed.

Lemma dotless_pad2 (n : Z) : dotless (pad2 n).
Proof.
  unfold pad2. destruct (n <? 10);
    [apply dotless_literal_app; [done|]|]; apply dotless_pretty_Z.
Qed.

Lemma dotless_pad4 (n : Z) : dotless (pad4 n).
Proof.
  unfold pad4. repeat case_match;
    try (apply dotless_literal_app; [done|]); apply dotless_pretty_Z.
Qed.

(** Replacing the suffix of a name that has no other dot. *)
Lemma replace_suffix p : dotless p → replace ".json" ".html" (p +:+ ".json") = p +:+ ".html".
Proof.
  unfold replace, dotless. induction p as [|a p IH]; [intros _; reflexivity|].
  cbn [String.list_ascii_of_string]. rewrite not_elem_of_cons. intros [Ha Hp].
  change (String a p +:+ ".json") with (String a (p +:+ ".json")).
  change (String a p +:+ ".html") with (String a (p +:+ ".html")).
  cbn [replace_from String.prefix].
  destruct (ascii_dec "." a) as [Heq|_]; [by destruct Ha|].
  by rewrite IH.
Qed.

(** X17. The HTML page is stored beside the JSON report: its key is the key
    of the report with the suffix [.json] changed into [.html], for every
    time of the run; no other part of the key is touched. *)
Theorem html_key_beside_report_key (timestamp : Z) :
  replace ".json" ".html" (report_key_at timestamp) = html_key_at timestamp.
Proof.
  unfold report_key_at, html_key_at, stamp_text. cbv zeta.
  set (dt := utcfromtimestamp timestamp).
  rewrite <- !append_assoc. rewrite replace_suffix; [done|].
  repeat (apply dotless_app);
    try apply dotless_pad2; try apply dotless_pad4; try apply dotless_pretty_Z;
    unfold dotless; apply (bool_decide_unpack _); by vm_compute.
Qed.

End ReportKeys.

(** ** The further properties on concrete inputs *)

Section MoreWitnesses.
Import Py Json Examples MoreExamples.

(** The empty table of [one_object], after a batch of one upload. *)
Lemma handler_keeps_table_well_formed_witness :
  Stores.table_ok one_object
  ∧ Stores.table_ok
      (Processor.handler calm
         [{| Processor.body :=
               Ok (JObj [("Records", JArr [uploaded "uploads" "data/a.csv" 12])]) |}]
         one_object).2.
Proof.
  assert (Stores.table_ok one_object) as Hempty.
  { intros id it Hit. cbn in Hit. by rewrite lookup_empty in Hit. }
  split; [exact Hempty|].
  exact (handler_keeps_table_well_formed calm _ one_object Hempty).
Defined.

Lemma unreadable_descriptor_leaves_no_trace_witness :
  Processor.event_details no_size = Raise "'size'"
  ∧ Processor.process_s3_event calm no_size one_object = (Ok false, one_object).
Proof.
  split; [reflexivity|].
  exact (unreadable_descriptor_leaves_no_trace calm no_size one_object "'size'"
           eq_refl).
Defined.

Lemma download_failure_is_recorded_witness :
  ∃ w',
    Processor.process_s3_event refused_download
      (uploaded "uploads" "data/a.csv" 12) one_object = (Ok false, w')
    ∧ Processor.processingStatus
        <$> Processor.metadata w'
            !! Processor.uuid4 refused_download (Processor.tick one_object)
      = Some "FAILED"
    ∧ Processor.errorMessage
        <$> Processor.metadata w'
            !! Processor.uuid4 refused_download (Processor.tick one_object)
      = Some (Some "AccessDenied").
Proof.
  destruct (download_failure_is_recorded refused_download
              (uploaded "uploads" "data/a.csv" 12)
              (JStr "uploads") (JStr "data/a.csv") (JNum 12) "AccessDenied"
              one_object eq_refl eq_refl eq_refl eq_refl)
    as (w' & Hrun & Hrecord & _).
  exists w'. split; [exact Hrun|]. rewrite Hrecord. split; reflexivity.
Defined.

Lemma swallowed_failure_leaves_processing_witness :
  ∃ w',
    Processor.process_s3_event refused_twice
      (uploaded "uploads" "data/a.csv" 12) one_object = (Ok false, w')
    ∧ Processor.processingStatus
        <$> Processor.metadata w'
            !! Processor.uuid4 refused_twice (Processor.tick one_object)
      = Some "PROCESSING".
Proof.
  destruct (swallowed_failure_leaves_processing refused_twice
              (uploaded "uploads" "data/a.csv" 12)
              (JStr "uploads") (JStr "data/a.csv") (JNum 12) "AccessDenied"
              "ProvisionedThroughputExceeded"
              one_object eq_refl eq_refl eq_refl eq_refl)
    as (w' & Hrun & Hrecord & _).
  exists w'. split; [exact Hrun|]. by rewrite Hrecord.
Defined.

Lemma success_leaves_output_and_record_witness :
  (Processor.process_s3_event calm (uploaded "uploads" "data/a.csv" 12) one_object).1
  = Ok true
  ∧ ∃ it output_key data,
      Processor.metadata
        (Processor.process_s3_event calm (uploaded "uploads" "data/a.csv" 12)
           one_object).2 !! Processor.uuid4 calm (Processor.tick one_object)
      = Some it
      ∧ Processor.processingStatus it = "COMPLETED"
      ∧ Processor.processedKey it = Some output_key
      ∧ Processor.processed
          (Processor.process_s3_event calm (uploaded "uploads" "data/a.csv" 12)
             one_object).2 !! output_key
        = Some data
      ∧ Processor.recordCount it
        = Some (Z.of_nat (length (Processor.records data))).
Proof.
  assert ((Processor.process_s3_event calm (uploaded "uploads" "data/a.csv" 12)
             one_object).1 = Ok true) as Hrun by (vm_compute; reflexivity).
  split; [exact Hrun|].
  destruct (success_leaves_output_and_record calm _ one_object Hrun)
    as (it & output_key & data & _ & _ & Hit & _ & Hstatus & Hkey & Hdata & Hcount & _).
  exists it, output_key, data. auto.
Defined.

(** A header and rows with spaces, a no-break space and an ideographic
    space around names and values, a blank row and a short row. *)
Lemma records_are_trimmed_rows_witness :
  ∃ data w',
    Processor.process_csv_data calm
      [[" name"; "size" +:+ nbsp]; ["a "; wide_space +:+ "1"]; []; ["b"]] one_object
    = (Ok data, w')
    ∧ Forall2 (λ rec r, ∃ processed_at n,
                 rec = Rows.stamped [" name"; "size" +:+ nbsp] r processed_at
                         (Processor.uuid4 calm n))
        (Processor.records data) [["a "; wide_space +:+ "1"]; ["b"]]
    ∧ Rows.trimmed [" name"; "size" +:+ nbsp] ["a "; wide_space +:+ "1"]
      = [("name", Processor.CStr "a"); ("size", Processor.CStr "1")]
    ∧ Rows.trimmed [" name"; "size" +:+ nbsp] ["b"]
      = [("name", Processor.CStr "b"); ("size", Processor.CNone)].
Proof.
  destruct (records_are_trimmed_rows calm [" name"; "size" +:+ nbsp]
              [["a "; wide_space +:+ "1"]; []; ["b"]] one_object)
    as (data & w' & Hrun & Hrecs).
  - apply (bool_decide_unpack _). by vm_compute.
  - apply (bool_decide_unpack _). by vm_compute.
  - apply (bool_decide_unpack _). by vm_compute.
  - repeat constructor; simpl; lia.
  - exists data, w'. split; [exact Hrun|]. split; [exact Hrecs|].
    split; reflexivity.
Defined.

Lemma output_key_of_named_object_witness :
  Processor.generate_output_key calm
    (JStr ("incoming/2023" +:+ String "/" ("sales.q3" +:+ String "." "csv")))
    one_object
  = (let dt := utcfromtimestamp (Processor.utcnow calm (Processor.tick one_object)) in
     Ok ("processed/" +:+ pretty (year dt) +:+ "/" +:+ pad2 (month dt) +:+ "/"
         +:+ pad2 (day dt) +:+ "/" +:+ "sales.q3" +:+ "_" +:+ pad2 (hour dt)
         +:+ pad2 (minute dt) +:+ pad2 (second dt) +:+ ".json"),
     Processor.bump one_object).
Proof.
  apply (output_key_of_named_object calm "incoming/2023" "sales.q3" "csv" one_object);
    apply (bool_decide_unpack _); by vm_compute.
Defined.

Lemma first_top_file_is_largest_witness :
  ∃ r f,
    Reporter.generate_report dev 1700090000 three_of_five 1700000000 1700086400
    = Ok r
    ∧ head (Reporter.top_files r) = Some f
    ∧ 5 ≤ Reporter.top_recordCount f.
Proof.
  apply (first_top_file_is_largest dev 1700090000 three_of_five 1700000000
           1700086400 (record "a.csv" "COMPLETED" 1700000000 (Some 5) None)).
  - left. reflexivity.
  - reflexivity.
Defined.

Lemma fetch_ignores_page_boundaries_witness :
  concat two_pages = concat two_even_pages
  ∧ Reporter.fetch_report_data (length two_pages) two_pages 1700000000 1700086400
    = Reporter.fetch_report_data (length two_even_pages) two_even_pages
        1700000000 1700086400.
Proof.
  assert (concat two_pages = concat two_even_pages) as Hsame by reflexivity.
  split; [exact Hsame|].
  exact (fetch_ignores_page_boundaries two_pages two_even_pages 1700000000
           1700086400 Hsame).
Defined.

(** A run at 1700086400 in a process five and a half hours ahead of UTC:
    the scan covers the timestamps up to 1700066600, so that the record
    uploaded a hundred seconds before the run is not in the report. *)
Lemma handler_reports_last_day_witness :
  ∃ r generated today w',
    Delivery.handler on_time ahead before_run
    = (Ok {| Delivery.statusCode := 200;
             Delivery.body :=
               Delivery.Generated
                 (Delivery.report_key_at
                    (Delivery.utcnow on_time (Delivery.tick before_run))) |}, w')
    ∧ Reporter.generate_report ahead generated
        (List.filter
           (Reporter.between
              (Delivery.utcnow on_time (Delivery.tick before_run) - 86400
               - Reporter.utcoffset ahead)
              (Delivery.utcnow on_time (Delivery.tick before_run)
               - Reporter.utcoffset ahead))
           (concat (Delivery.table before_run)))
        (Delivery.utcnow on_time (Delivery.tick before_run) - 86400)
        (Delivery.utcnow on_time (Delivery.tick before_run)) = Ok r
    ∧ Reporter.total_files_processed (Reporter.report_summary r) = 1
    ∧ Reporter.top_fileName <$> Reporter.top_files r = [Some "older.csv"]
    ∧ length (Delivery.reports w') = 2%nat
    ∧ Delivery.published w'
      = [(Delivery.report_subject ahead today,
          Delivery.SummaryOf r
            (Delivery.report_key_at
               (Delivery.utcnow on_time (Delivery.tick before_run))))].
Proof.
  destruct (handler_reports_last_day on_time ahead before_run (λ n, eq_refl))
    as (r & generated & today & w' & Hrun & Hreport & Hreports & Hpublished & _).
  exists r, generated, today, w'.
  split; [exact Hrun|]. split; [exact Hreport|].
  match type of Hreport with
  | Reporter.generate_report _ _ ?data ?lo ?hi = _ =>
      destruct (generate_report_ok ahead generated data lo hi)
        as (r' & Hr' & Htotal & _ & _ & _ & _ & _ & Htop)
  end.
  rewrite Hreport in Hr'. injection Hr' as <-.
  split; [rewrite Htotal; reflexivity|].
  split; [rewrite Htop; reflexivity|].
  split; [by rewrite Hreports|exact Hpublished].
Defined.

End MoreWitnesses.
